(** * ResourceDecorator

    A shallow embedding of [src/backend/decorators/resource-decorator.ts]:
    the decorator that reconciles a raw resource, the options of the user
    and the default actions into decorated properties, decorated actions
    and a JSON snapshot.

    Layout: the object model of the host language, the data model of the
    decorator, its methods, a small concrete set-up to run them on, and
    then the lemmas and theorems about the methods. *)

From Stdlib Require Import String Ascii ZArith NArith Bool Lia.
From Stdlib Require Import List Permutation Sorted.
Import ListNotations.
Local Open Scope string_scope.
Local Open Scope list_scope.

(** ** Exceptions and results

    The methods either return or throw.  Two kinds of exception occur:
    the [ConfigurationError] the decorator raises itself (message and the
    documentation page handed to its constructor), and the [TypeError] of
    the runtime when a method is called on a value that has none. *)

Inductive Exn : Type :=
| ConfigurationError (message : string) (docs : string)
| TypeError (what : string).

Inductive Result (A : Type) : Type :=
| Ok (a : A)
| Throw (e : Exn).

Arguments Ok {A} a.
Arguments Throw {A} e.

Definition bind {A B : Type} (r : Result A) (k : A -> Result B) : Result B :=
  match r with
  | Ok a => k a
  | Throw e => Throw e
  end.

Notation "x <- r ;; k" := (bind r (fun x => k))
  (at level 61, r at next level, right associativity).

(** [Array.prototype.map] with a callback that may throw: elements are
    visited left to right and the first exception ends the loop. *)
Fixpoint mapM {A B : Type} (f : A -> Result B) (l : list A) : Result (list B) :=
  match l with
  | [] => Ok []
  | a :: l' => b <- f a ;; bs <- mapM f l' ;; Ok (b :: bs)
  end.

(** ** Objects of the host language *)

Module Js.

(** Only the empty string is a falsy string. *)
Definition truthy_string (s : string) : bool := negb (String.eqb s "").

(** [key.match(/\./)]: the key has a dot somewhere. *)
Fixpoint has_dot (s : string) : bool :=
  match s with
  | EmptyString => false
  | String c s' => Ascii.eqb c "."%char || has_dot s'
  end.

Definition digit (c : ascii) : option N :=
  let n := N_of_ascii c in
  if (48 <=? n)%N && (n <=? 57)%N then Some (n - 48)%N else None.

Fixpoint digits (s : string) (acc : N) : option N :=
  match s with
  | EmptyString => Some acc
  | String c s' =>
      match digit c with
      | Some d => digits s' (10 * acc + d)%N
      | None => None
      end
  end.

(** A property key is an array index when it is the canonical decimal
    form of an integer below 2^32 - 1. *)
Definition array_index (k : string) : option N :=
  match k with
  | EmptyString => None
  | String c rest =>
      match digits k 0 with
      | Some n =>
          if (negb (Ascii.eqb c "0"%char) || String.eqb rest "")
             && (n <? 4294967295)%N
          then Some n else None
      | None => None
      end
  end.

(** The names every ordinary object inherits from [Object.prototype]. *)
Definition Object_prototype : list string :=
  [ "constructor"; "__defineGetter__"; "__defineSetter__"; "hasOwnProperty";
    "__lookupGetter__"; "__lookupSetter__"; "isPrototypeOf";
    "propertyIsEnumerable"; "toString"; "valueOf"; "__proto__";
    "toLocaleString" ].

Definition inherited (k : string) : bool :=
  existsb (String.eqb k) Object_prototype.

Section Objects.
Context {V : Type}.

(** An ordinary object whose own properties hold values of [V], listed
    in the order [Object.keys] enumerates them: array indices first, in
    ascending numeric order, then the other keys in creation order. *)
Definition Obj : Type := list (string * V).

Definition empty : Obj := [].

Definition keys (o : Obj) : list string := map fst o.

Definition values (o : Obj) : list V := map snd o.

Fixpoint own (k : string) (o : Obj) : option V :=
  match o with
  | [] => None
  | (k', v) :: o' => if String.eqb k k' then Some v else own k o'
  end.

(** What reading [o[k]] yields: an own value, a member inherited from
    [Object.prototype], or [undefined]. *)
Inductive Read : Type :=
| Undefined
| Own (v : V)
| Inherited (name : string).

Definition get (o : Obj) (k : string) : Read :=
  match own k o with
  | Some v => Own v
  | None => if inherited k then Inherited k else Undefined
  end.

(** Truthiness of a read whose own values are objects: everything but
    [undefined] is truthy. *)
Definition truthy (r : Read) : bool :=
  match r with
  | Undefined => false
  | Own _ | Inherited _ => true
  end.

Fixpoint update (k : string) (v : V) (o : Obj) : Obj :=
  match o with
  | [] => []
  | (k', v') :: o' =>
      if String.eqb k k' then (k', v) :: o' else (k', v') :: update k v o'
  end.

Fixpoint insert_index (n : N) (k : string) (v : V) (o : Obj) : Obj :=
  match o with
  | [] => [(k, v)]
  | (k', v') :: o' =>
      match array_index k' with
      | Some n' =>
          if (n' <? n)%N then (k', v') :: insert_index n k v o'
          else (k, v) :: o
      | None => (k, v) :: o
      end
  end.

(** Defining the own property [k], as a computed key of an object
    literal does, or an assignment to a key that is not inherited: an
    existing key keeps its place, a new array index goes to its numeric
    place, any other new key goes last. *)
Definition set (k : string) (v : V) (o : Obj) : Obj :=
  match own k o with
  | Some _ => update k v o
  | None =>
      match array_index k with
      | Some n => insert_index n k v o
      | None => o ++ [(k, v)]
      end
  end.

(** The object an object literal with these entries evaluates to. *)
Definition literal (entries : list (string * V)) : Obj :=
  fold_left (fun o kv => set (fst kv) (snd kv) o) entries empty.

(** A list of entries is an object of the model when it is what its own
    literal evaluates to (distinct keys, in enumeration order) and has
    no own key ["__proto__"], which assignment and [_.merge] treat apart
    from all other keys. *)
Definition wf (o : Obj) : Prop :=
  literal o = o /\ ~ In "__proto__" (keys o).

End Objects.

Arguments Obj V : clear implicits.
Arguments Read V : clear implicits.

(** [String.prototype.includes]. *)
Definition includes (s part : string) : Prop :=
  exists pre post, s = (pre ++ part ++ post)%string.

(** [Array.prototype.slice(0, end)] for an integer [end]: a negative
    [end] counts from the end of the array. *)
Definition slice0 {A : Type} (l : list A) (e : Z) : list A :=
  let len := Z.of_nat (length l) in
  let stop := if (e <? 0)%Z then Z.max (len + e) 0 else Z.min e len in
  firstn (Z.to_nat stop) l.

(** [Array.prototype.sort(comparefn)].  The language leaves the order
    open when [comparefn] is not a consistent comparison, so the engine
    is an interface. *)
Class ArraySort : Type := {
  sort : forall {A : Type}, (A -> A -> Z) -> list A -> list A
}.

(** [x] may stand before [y] on the word of [comparefn]: one of the two
    calls on the pair says so. *)
Definition before {A : Type} (c : A -> A -> Z) (x y : A) : Prop :=
  (c x y <= 0)%Z \/ (0 <= c y x)%Z.

(** What every engine keeps to, whatever [comparefn] is: the result is
    a rearrangement of the array, and two neighbours of the result were
    put in that order by a call of [comparefn] on them. *)
Record Lawful (S : ArraySort) : Prop := {
  sort_permutation :
    forall (A : Type) (c : A -> A -> Z) (l : list A),
      Permutation (sort c l) l;
  sort_neighbours :
    forall (A : Type) (c : A -> A -> Z) (l pre post : list A) (x y : A),
      sort c l = pre ++ x :: y :: post -> before c x y
}.

(** The insertion sort V8 runs on short arrays: each element moves left
    past the elements [comparefn] puts after it. *)
Fixpoint insert {A : Type} (c : A -> A -> Z) (x : A) (sorted_rev : list A)
  : list A :=
  match sorted_rev with
  | [] => [x]
  | t :: rest =>
      if (0 <? c t x)%Z then t :: insert c x rest else x :: sorted_rev
  end.

Definition insertion_sort {A : Type} (c : A -> A -> Z) (l : list A) : list A :=
  rev (fold_left (fun acc x => insert c x acc) l []).

Definition insertion : ArraySort := {| sort := @insertion_sort |}.

End Js.

(** ** Collaborators

    The decorator works with classes that live in other files of the
    repository.  Their types are kept abstract here. *)

Class Host : Type := {
  AdminBro : Type;         (** the running admin instance *)
  PropertyOptions : Type;  (** the overrides the user gives for one property *)
  CurrentAdmin : Type;     (** the logged-in user *)
  BaseRecord : Type;       (** one record of a resource *)
  Rule : Type;             (** an [isVisible] / [isAccessible] entry of an action *)
  Handler : Type;          (** the handler of an action *)
  PropertyJSON : Type;     (** what [PropertyDecorator.toJSON] returns *)
  ActionJSON : Type        (** what [ActionDecorator.toJSON] returns *)
}.

(** Modelled from the spec: the places a property can be shown in
    ([PropertyPlace] is declared in another file). *)
Module PropertyPlace.
Inductive t : Type := list | edit | show | filter.
End PropertyPlace.

(** Modelled from the spec: [BaseProperty] is not part of this file; a
    descriptor is known to the decorator by its name, which is its path,
    and by its sortability flag. *)
Record BaseProperty : Type := {
  path : string;
  isSortable : bool
}.

Definition BaseProperty_name (p : BaseProperty) : string := path p.

(** Modelled from the spec: what a [BaseResource] exposes. *)
Record BaseResource : Type := {
  resource_id : string;
  resource_name : string;
  databaseName : string;
  databaseType : option string;
  resource_properties : list BaseProperty
}.

(** [new PropertyDecorator({ property, admin, options, resource })]; the
    back reference to the resource decorator is left out. *)
Record PropertyDecorator `{Host} : Type := {
  property : BaseProperty;
  property_admin : AdminBro;
  property_options : Js.Read PropertyOptions
}.

(** The scope of an action. *)
Inductive ActionType : Type := resource | record.

(** Modelled from the spec: the fields of an action, each of which may be
    left out. *)
Record Action `{Host} : Type := {
  action_name : option string;
  action_label : option string;
  actionType : option ActionType;
  component : option string;
  isVisible : option Rule;
  isAccessible : option Rule;
  handler : option Handler
}.

(** [new ActionDecorator({ action, admin, resource })]. *)
Record ActionDecorator `{Host} : Type := {
  action : Action;
  action_admin : AdminBro;
  action_resource : BaseResource
}.

(** Modelled from the spec: [options.parent] is a string or an object
    [{ name, icon }]. *)
Inductive Parent : Type :=
| ParentString (s : string)
| ParentObject (name : option string) (icon : option string).

(** Modelled from the spec: the options of a resource
    ([ResourceOptions] is declared in another file); every field may be
    left out. *)
Record ResourceOptions `{Host} : Type := {
  options_name : option string;
  options_parent : option Parent;
  options_properties : option (Js.Obj PropertyOptions);
  listProperties : option (list string);
  editProperties : option (list string);
  showProperties : option (list string);
  filterProperties : option (list string);
  options_actions : option (Js.Obj Action)
}.

(** The fields of the class; the view helpers are built from [_admin]. *)
Record ResourceDecorator `{Host} : Type := {
  properties : Js.Obj PropertyDecorator;
  options : ResourceOptions;
  actions : Js.Obj ActionDecorator;
  _resource : BaseResource;
  _admin : AdminBro
}.

(** What [getParent] returns. *)
Record ParentJSON : Type := {
  parent_name : Parent;
  parent_icon : string
}.

(** What [toJSON] returns. *)
Record ResourceJSON `{Host} : Type := {
  json_id : string;
  json_name : string;
  json_parent : ParentJSON;
  json_href : string;
  json_titleProperty : PropertyJSON;
  json_resourceActions : list ActionJSON;
  json_listProperties : list PropertyJSON;
  json_editProperties : list PropertyJSON;
  json_showProperties : list PropertyJSON;
  json_filterProperties : list PropertyJSON
}.

(** The methods of the other classes the decorator calls, and the
    default actions it imports.  Modelled from the spec: a position is
    an integer, and the checks of visibility, title and access answer
    yes or no. *)
Class Collaborators `{Host} : Type := {
  PropertyDecorator_isVisible : PropertyDecorator -> PropertyPlace.t -> bool;
  PropertyDecorator_position : PropertyDecorator -> Z;
  PropertyDecorator_isTitle : PropertyDecorator -> bool;
  PropertyDecorator_toJSON : PropertyDecorator -> PropertyJSON;
  ActionDecorator_isResourceType : ActionDecorator -> bool;
  ActionDecorator_isRecordType : ActionDecorator -> bool;
  ActionDecorator_isVisible :
    ActionDecorator -> option CurrentAdmin -> option BaseRecord -> bool;
  ActionDecorator_isAccessible :
    ActionDecorator -> option CurrentAdmin -> option BaseRecord -> bool;
  ActionDecorator_toJSON : ActionDecorator -> ActionJSON;
  resourceActionUrl : AdminBro -> string -> string -> string;
  ACTIONS : Js.Obj Action
}.

(** ** The methods of [ResourceDecorator] *)

Definition DEFAULT_MAX_COLUMNS_IN_LIST : Z := 8.

Section Methods.
Context `{Collaborators} `{Js.ArraySort}.

(** [_.merge] on one field: a source value that is [undefined] leaves
    the destination as it is; any other value is assigned.  (The fields
    of an action hold strings and functions, which [_.merge] assigns as
    they are; it would descend into a field that held a plain object.) *)
Definition merge_field {A : Type} (dst src : option A) : option A :=
  match src with
  | Some v => Some v
  | None => dst
  end.

Definition merge_action (dst src : Action) : Action :=
  {| action_name := merge_field (action_name dst) (action_name src);
     action_label := merge_field (action_label dst) (action_label src);
     actionType := merge_field (actionType dst) (actionType src);
     component := merge_field (component dst) (component src);
     isVisible := merge_field (isVisible dst) (isVisible src);
     isAccessible := merge_field (isAccessible dst) (isAccessible src);
     handler := merge_field (handler dst) (handler src) |}.

Definition no_action : Action :=
  {| action_name := None; action_label := None; actionType := None;
     component := None; isVisible := None; isAccessible := None;
     handler := None |}.

Definition or_no_action (a : option Action) : Action :=
  match a with
  | Some a => a
  | None => no_action
  end.

(** [_.merge(dst, src)] on objects of actions, after the documentation
    of the library: each own property of [src] is merged, field by
    field, into the property of [dst] with the same key, or into a fresh
    object when [dst] has none. *)
Definition merge (dst src : Js.Obj Action) : Js.Obj Action :=
  fold_left
    (fun object kv =>
       let objValue := or_no_action (Js.own (fst kv) object) in
       Js.set (fst kv) (merge_action objValue (snd kv)) object)
    src dst.

(** [x || {}] on an optional object. *)
Definition or_empty {V : Type} (x : option (Js.Obj V)) : Js.Obj V :=
  match x with
  | Some o => o
  | None => Js.empty
  end.

(** [x || key] on an optional string field. *)
Definition or_key (x : option string) (key : string) : string :=
  match x with
  | Some s => if Js.truthy_string s then s else key
  | None => key
  end.

(** [actions[key].name = actions[key].name || key], and the same for
    the label. *)
Definition with_defaults (key : string) (a : Action) : Action :=
  {| action_name := Some (or_key (action_name a) key);
     action_label := Some (or_key (action_label a) key);
     actionType := actionType a;
     component := component a;
     isVisible := isVisible a;
     isAccessible := isAccessible a;
     handler := handler a |}.

(** [decorateActions]; the loop runs over the own keys of the merged
    object, each paired with the value stored under it. *)
Definition decorateActions (resource : BaseResource) (admin : AdminBro)
    (options : ResourceOptions) : Js.Obj ActionDecorator :=
  let actions :=
    merge (merge Js.empty ACTIONS) (or_empty (options_actions options)) in
  fold_left
    (fun returnActions kv =>
       let key := fst kv in
       Js.set key
         {| action := with_defaults key (snd kv); action_admin := admin;
            action_resource := resource |}
         returnActions)
    actions Js.empty.

(** [this.options.properties && this.options.properties[key]]. *)
Definition options_for (options : ResourceOptions) (key : string)
  : Js.Read PropertyOptions :=
  match options_properties options with
  | Some o => Js.get o key
  | None => Js.Undefined
  end.

(** [decorateProperties]; [{ ...memo, [name]: decorator }] is [memo]
    with the property [name] defined, and [properties[key] = decorator],
    reached only when [properties[key]] is [undefined], defines the
    property [key]. *)
Definition decorateProperties (resource : BaseResource) (admin : AdminBro)
    (options : ResourceOptions) : Js.Obj PropertyDecorator :=
  let properties :=
    fold_left
      (fun memo property =>
         let decorator :=
           {| property := property; property_admin := admin;
              property_options :=
                options_for options (BaseProperty_name property) |} in
         Js.set (BaseProperty_name property) decorator memo)
      (resource_properties resource) Js.empty in
  match options_properties options with
  | Some o =>
      fold_left
        (fun properties key =>
           if negb (Js.truthy (Js.get properties key))
              && negb (Js.has_dot key)
           then
             let property := {| path := key; isSortable := false |} in
             Js.set key
               {| property := property; property_admin := admin;
                  property_options := options_for options key |}
               properties
           else properties)
        (Js.keys o) properties
  | None => properties
  end.

(** The constructor; [this.options.properties] is set to
    [this.options.properties || {}] before the properties are decorated. *)
Definition new_ResourceDecorator (resource : BaseResource)
    (admin : AdminBro) (options : ResourceOptions) : ResourceDecorator :=
  let options :=
    {| options_name := options_name options;
       options_parent := options_parent options;
       options_properties := Some (or_empty (options_properties options));
       listProperties := listProperties options;
       editProperties := editProperties options;
       showProperties := showProperties options;
       filterProperties := filterProperties options;
       options_actions := options_actions options |} in
  {| properties := decorateProperties resource admin options;
     options := options;
     actions := decorateActions resource admin options;
     _resource := resource;
     _admin := admin |}.

Definition getResourceName (this : ResourceDecorator) : string :=
  match options_name (options this) with
  | Some s =>
      if Js.truthy_string s then s else resource_name (_resource this)
  | None => resource_name (_resource this)
  end.

Definition getParent (this : ResourceDecorator) : ParentJSON :=
  let parent :=
    match options_parent (options this) with
    | Some (ParentString s) =>
        if Js.truthy_string s then ParentString s
        else ParentString (databaseName (_resource this))
    | Some (ParentObject n i) => ParentObject n i
    | None => ParentString (databaseName (_resource this))
    end in
  let name :=
    match parent with
    | ParentObject (Some n) _ =>
        if Js.truthy_string n then ParentString n else parent
    | _ => parent
    end in
  let default_icon :=
    ("icon-" ++
     match databaseType (_resource this) with
     | Some t => if Js.truthy_string t then t else "database"
     | None => "database"
     end)%string in
  let icon :=
    match parent with
    | ParentObject _ (Some i) =>
        if Js.truthy_string i then i else default_icon
    | _ => default_icon
    end in
  {| parent_name := name; parent_icon := icon |}.

Definition getPropertyByKey (this : ResourceDecorator)
    (propertyPath : string) : Result (Js.Read PropertyDecorator) :=
  let property := Js.get (properties this) propertyPath in
  if negb (Js.truthy property) then
    Throw (ConfigurationError
             ("there is no property by the name of '" ++ propertyPath
              ++ "' in resource " ++ getResourceName this)%string
             "tutorial-04-customizing-resources.html")
  else Ok property.

(** [this.options[`${where}Properties`]]. *)
Definition whereProperties (options : ResourceOptions)
    (where_ : PropertyPlace.t) : option (list string) :=
  match where_ with
  | PropertyPlace.list => listProperties options
  | PropertyPlace.edit => editProperties options
  | PropertyPlace.show => showProperties options
  | PropertyPlace.filter => filterProperties options
  end.

(** The comparison function handed to [sort]. *)
Definition by_position (kv1 kv2 : string * PropertyDecorator) : Z :=
  if (PropertyDecorator_position (snd kv1)
      >? PropertyDecorator_position (snd kv2))%Z
  then 1%Z else (-1)%Z.

(** The default [max = 0] of the parameter list. *)
Definition or_default (max : option Z) : Z :=
  match max with
  | Some m => m
  | None => 0%Z
  end.

(** [getProperties({ where, max = 0 })]; in the second branch each own
    key travels with the value stored under it. *)
Definition getProperties (this : ResourceDecorator)
    (where_ : PropertyPlace.t) (max : option Z)
  : Result (list (Js.Read PropertyDecorator)) :=
  let max := or_default max in
  let override :=
    match whereProperties (options this) where_ with
    | Some names => if (length names =? 0)%nat then None else Some names
    | None => None
    end in
  match override with
  | Some names => mapM (getPropertyByKey this) names
  | None =>
      let properties :=
        map (fun kv => Js.Own (snd kv))
          (Js.sort by_position
             (filter
                (fun kv => PropertyDecorator_isVisible (snd kv) where_)
                (properties this))) in
      if (max =? 0)%Z then Ok properties
      else Ok (Js.slice0 properties max)
  end.

Definition getListProperties (this : ResourceDecorator)
  : Result (list (Js.Read PropertyDecorator)) :=
  getProperties this PropertyPlace.list (Some DEFAULT_MAX_COLUMNS_IN_LIST).

Definition resourceActions (this : ResourceDecorator)
    (currentAdmin : option CurrentAdmin) : list ActionDecorator :=
  filter
    (fun action =>
       ActionDecorator_isResourceType action
       && ActionDecorator_isVisible action currentAdmin None
       && ActionDecorator_isAccessible action currentAdmin None)
    (Js.values (actions this)).

Definition recordActions (this : ResourceDecorator) (record : BaseRecord)
    (currentAdmin : option CurrentAdmin) : list ActionDecorator :=
  filter
    (fun action =>
       ActionDecorator_isRecordType action
       && ActionDecorator_isVisible action currentAdmin (Some record)
       && ActionDecorator_isAccessible action currentAdmin (Some record))
    (Js.values (actions this)).

(** [titleProperty || properties[0]]; [None] stands for [undefined]. *)
Definition titleProperty (this : ResourceDecorator)
  : option PropertyDecorator :=
  let properties := Js.values (properties this) in
  match find PropertyDecorator_isTitle properties with
  | Some titleProperty => Some titleProperty
  | None => nth_error properties 0
  end.

(** [property.toJSON()] on what [getProperties] handed out. *)
Definition read_toJSON (r : Js.Read PropertyDecorator)
  : Result PropertyJSON :=
  match r with
  | Js.Own p => Ok (PropertyDecorator_toJSON p)
  | _ => Throw (TypeError "property.toJSON is not a function")
  end.

Definition toJSON (this : ResourceDecorator)
    (currentAdmin : option CurrentAdmin) : Result ResourceJSON :=
  let id := resource_id (_resource this) in
  let name := getResourceName this in
  let parent := getParent this in
  let href := resourceActionUrl (_admin this) id "list" in
  title <-
    match titleProperty this with
    | Some p => Ok (PropertyDecorator_toJSON p)
    | None => Throw (TypeError "Cannot read property 'toJSON' of undefined")
    end ;;
  let ras := map ActionDecorator_toJSON (resourceActions this currentAdmin) in
  lps <- getProperties this PropertyPlace.list
           (Some DEFAULT_MAX_COLUMNS_IN_LIST) ;;
  l <- mapM read_toJSON lps ;;
  eps <- getProperties this PropertyPlace.edit None ;;
  e <- mapM read_toJSON eps ;;
  sps <- getProperties this PropertyPlace.show None ;;
  s <- mapM read_toJSON sps ;;
  fps <- getProperties this PropertyPlace.filter None ;;
  f <- mapM read_toJSON fps ;;
  Ok {| json_id := id; json_name := name; json_parent := parent;
        json_href := href; json_titleProperty := title;
        json_resourceActions := ras; json_listProperties := l;
        json_editProperties := e; json_showProperties := s;
        json_filterProperties := f |}.

End Methods.

(** ** The title of a record *)

(** What [titleOf] needs of the other classes: the field access of a
    record and the name of a decorated property. *)
Class Records `{Host} : Type := {
  Value : Type;
  BaseRecord_param : BaseRecord -> string -> Value;
  PropertyDecorator_name : PropertyDecorator -> string
}.

(** [record.param(this.titleProperty().name())]; calling [name] on
    [undefined] is a [TypeError]. *)
Definition titleOf `{Collaborators} {R : Records} (this : ResourceDecorator)
    (record : BaseRecord) : Result Value :=
  match titleProperty this with
  | Some p => Ok (BaseRecord_param record (PropertyDecorator_name p))
  | None => Throw (TypeError "Cannot read property 'name' of undefined")
  end.

(** ** Entries of the property map

    The entry a descriptor gives rise to, and the entry made up for a
    key that only the options mention. *)

Section Entries.
Context `{Host}.

Definition real_entry (admin : AdminBro) (o : Js.Obj PropertyOptions)
    (p : BaseProperty) : string * PropertyDecorator :=
  (BaseProperty_name p,
   {| property := p; property_admin := admin;
      property_options := Js.get o (BaseProperty_name p) |}).

Definition synthetic_entry (admin : AdminBro) (o : Js.Obj PropertyOptions)
    (key : string) : string * PropertyDecorator :=
  (key,
   {| property := {| path := key; isSortable := false |};
      property_admin := admin;
      property_options := Js.get o key |}).

(** The keys of the options that get a made-up entry: those that name
    no descriptor and hold no dot. *)
Definition only_in_options (names : list string) (key : string) : bool :=
  negb (existsb (String.eqb key) names) && negb (Js.has_dot key).

(** The key [k] is not among [ks]. *)
Definition absent (ks : list string) (k : string) : bool :=
  negb (existsb (String.eqb k) ks).

(** What holds of every entry of a decorated map: the key is the name
    of the wrapped property, the options are those read under the key,
    and the property is a descriptor of the resource when a descriptor
    has that name and a made-up one, not sortable, when none has. *)
Definition decorated_entry (resource : BaseResource) (admin : AdminBro)
    (options : ResourceOptions) (kv : string * PropertyDecorator) : Prop :=
  BaseProperty_name (property (snd kv)) = fst kv
  /\ property_admin (snd kv) = admin
  /\ property_options (snd kv) = options_for options (fst kv)
  /\ (In (fst kv) (map BaseProperty_name (resource_properties resource))
      /\ In (property (snd kv)) (resource_properties resource)
      \/ ~ In (fst kv) (map BaseProperty_name (resource_properties resource))
         /\ property (snd kv) = {| path := fst kv; isSortable := false |}).

End Entries.

(** ** A concrete set-up

    Stand-ins for the collaborators, used to run the methods: a property
    is placed, titled and hidden by its overrides alone, an action is
    judged by the rules stored in it, and JSON is a name. *)

Module Demo.

Record Overrides : Type := {
  position : option Z;
  isTitle : bool;
  hidden : bool
}.

Definition plain : Overrides :=
  {| position := None; isTitle := false; hidden := false |}.

Definition host : Host :=
  {| AdminBro := unit;
     PropertyOptions := Overrides;
     CurrentAdmin := string;
     BaseRecord := unit;
     Rule := option string -> bool;
     Handler := unit;
     PropertyJSON := string;
     ActionJSON := string |}.

#[local] Existing Instance host.

Definition overrides_of (d : PropertyDecorator) : Overrides :=
  match property_options d with
  | Js.Own o => o
  | _ => plain
  end.

Definition rule (r : option Rule) (currentAdmin : option CurrentAdmin)
  : bool :=
  match r with
  | Some f => f currentAdmin
  | None => true
  end.

Definition has_type (t : ActionType) (a : ActionDecorator) : bool :=
  match actionType (action a), t with
  | Some resource, resource => true
  | Some record, record => true
  | _, _ => false
  end.

Definition builtin (t : ActionType) : Action :=
  {| action_name := None; action_label := None; actionType := Some t;
     component := None; isVisible := None; isAccessible := None;
     handler := Some tt |}.

Definition collaborators : Collaborators :=
  {| PropertyDecorator_isVisible := fun d _ => negb (hidden (overrides_of d));
     PropertyDecorator_position :=
       fun d => match position (overrides_of d) with
                | Some p => p
                | None => 100%Z
                end;
     PropertyDecorator_isTitle := fun d => isTitle (overrides_of d);
     PropertyDecorator_toJSON := fun d => path (property d);
     ActionDecorator_isResourceType := has_type resource;
     ActionDecorator_isRecordType := has_type record;
     ActionDecorator_isVisible :=
       fun a currentAdmin _ => rule (isVisible (action a)) currentAdmin;
     ActionDecorator_isAccessible :=
       fun a currentAdmin _ => rule (isAccessible (action a)) currentAdmin;
     ActionDecorator_toJSON :=
       fun a => match action_label (action a) with
                | Some l => l
                | None => ""
                end;
     resourceActionUrl :=
       fun _ resourceId actionName =>
         ("/admin/resources/" ++ resourceId ++ "/actions/" ++ actionName)%string;
     ACTIONS :=
       [ ("list", builtin resource); ("new", builtin resource);
         ("show", builtin record); ("edit", builtin record);
         ("delete", builtin record) ] |}.

#[local] Existing Instance collaborators.
#[local] Existing Instance Js.insertion.

Definition column (name : string) : BaseProperty :=
  {| path := name; isSortable := true |}.

Definition table (columns : list string) : BaseResource :=
  {| resource_id := "User"; resource_name := "User";
     databaseName := "shop"; databaseType := Some "mongodb";
     resource_properties := map column columns |}.

Definition no_options : ResourceOptions :=
  {| options_name := None; options_parent := None;
     options_properties := None; listProperties := None;
     editProperties := None; showProperties := None;
     filterProperties := None; options_actions := None |}.

Definition configure (o : option (Js.Obj PropertyOptions))
    (l : option (list string)) (a : option (Js.Obj Action))
  : ResourceOptions :=
  {| options_name := None; options_parent := None;
     options_properties := o; listProperties := l;
     editProperties := None; showProperties := None;
     filterProperties := None; options_actions := a |}.

Definition decorate (columns : list string) (o : ResourceOptions)
  : ResourceDecorator :=
  new_ResourceDecorator (table columns) tt o.

(** Options that rename the action ["delete"] and give it an empty
    label. *)
Definition renamed_delete : ResourceOptions :=
  configure None None
    (Some [("delete",
            {| action_name := Some "Remove"; action_label := Some "";
               actionType := None; component := None; isVisible := None;
               isAccessible := None; handler := None |})]).

(** The action decorated under ["delete"] then: the name is kept, the
    empty label gives way to the key. *)
Definition decorated_delete : ActionDecorator :=
  {| action :=
       {| action_name := Some "Remove"; action_label := Some "delete";
          actionType := Some record; component := None; isVisible := None;
          isAccessible := None; handler := Some tt |};
     action_admin := tt;
     action_resource := table ["id"] |}.

(** The record stand-in answers every field with a text naming it. *)
Definition records : Records :=
  {| Value := string;
     BaseRecord_param := fun _ field => ("value of " ++ field)%string;
     PropertyDecorator_name := fun d => path (property d) |}.

End Demo.

#[local] Existing Instance Demo.host.
#[local] Existing Instance Demo.collaborators.
#[local] Existing Instance Js.insertion.
#[local] Existing Instance Demo.records.

(** * Facts about the object model *)

Module JsFacts.
Import Js.

Section ObjectFacts.
Context {V : Type}.
Implicit Types (o : Obj V) (k : string) (v : V).

Lemma own_None_iff k o : own k o = None <-> ~ In k (keys o).
Proof.
  induction o as [|[k' v'] o IH]; simpl.
  - tauto.
  - destruct (String.eqb_spec k k') as [->|Hne].
    + split; [discriminate | intros Hn; exfalso; apply Hn; now left].
    + rewrite IH. split.
      * intros Hn [He|Hin]; [now apply Hne | now apply Hn].
      * intros Hn Hin. apply Hn. now right.
Qed.

Lemma own_Some_In k v o : own k o = Some v -> In (k, v) o.
Proof.
  induction o as [|[k' v'] o IH]; simpl; [discriminate|].
  destruct (String.eqb_spec k k') as [->|Hne].
  - intros [= ->]. now left.
  - intros Hown. right. now apply IH.
Qed.

Lemma own_In_keys k v o : own k o = Some v -> In k (keys o).
Proof.
  intros Hown. apply own_Some_In in Hown.
  change k with (fst (k, v)). now apply in_map.
Qed.

Lemma In_keys_own k o : In k (keys o) -> exists v, own k o = Some v.
Proof.
  intros Hin. destruct (own k o) as [v|] eqn:E; [now exists v|].
  apply own_None_iff in E. contradiction.
Qed.

Lemma keys_update k v o : keys (update k v o) = keys o.
Proof.
  induction o as [|[k' v'] o IH]; simpl; [reflexivity|].
  destruct (String.eqb k k'); simpl; [reflexivity | now rewrite IH].
Qed.

Lemma own_update k' k v o :
  own k' (update k v o) =
  if String.eqb k' k then option_map (fun _ => v) (own k o) else own k' o.
Proof.
  induction o as [|[k0 v0] o IH]; simpl.
  - now destruct (String.eqb k' k).
  - destruct (String.eqb_spec k k0) as [->|Hne]; simpl.
    + destruct (String.eqb_spec k' k0) as [->|Hne']; reflexivity.
    + destruct (String.eqb_spec k' k0) as [->|Hne'].
      * destruct (String.eqb_spec k0 k) as [->|_]; [contradiction | reflexivity].
      * exact IH.
Qed.

Lemma insert_index_perm n k v o :
  Permutation (insert_index n k v o) ((k, v) :: o).
Proof.
  induction o as [|[k' v'] o IH]; simpl; [reflexivity|].
  destruct (array_index k') as [n'|]; [|reflexivity].
  destruct (n' <? n)%N; [|reflexivity].
  rewrite IH. apply perm_swap.
Qed.

Lemma own_insert_index k' n k v o :
  own k o = None ->
  own k' (insert_index n k v o) =
  if String.eqb k' k then Some v else own k' o.
Proof.
  induction o as [|[k0 v0] o IH]; simpl; intros Hnew.
  - reflexivity.
  - destruct (String.eqb_spec k k0) as [->|Hne]; [discriminate|].
    assert (Hcons :
      own k' ((k, v) :: (k0, v0) :: o) =
      if String.eqb k' k then Some v
      else if String.eqb k' k0 then Some v0 else own k' o) by reflexivity.
    destruct (array_index k0) as [n'|]; [|exact Hcons].
    destruct (n' <? n)%N; [|exact Hcons].
    simpl. rewrite (IH Hnew).
    destruct (String.eqb_spec k' k0) as [E0|Hne'];
      destruct (String.eqb_spec k' k) as [E1|Hne'']; try reflexivity.
    congruence.
Qed.

Lemma own_app k' o o' :
  own k' (o ++ o') =
  match own k' o with Some v => Some v | None => own k' o' end.
Proof.
  induction o as [|[k0 v0] o IH]; simpl; [reflexivity|].
  now destruct (String.eqb k' k0).
Qed.

(** Reading after writing. *)
Lemma own_set k' k v o :
  own k' (set k v o) = if String.eqb k' k then Some v else own k' o.
Proof.
  unfold set. destruct (own k o) as [w|] eqn:E.
  - rewrite own_update, E. reflexivity.
  - destruct (array_index k) as [n|].
    + now apply own_insert_index.
    + rewrite own_app. simpl.
      destruct (String.eqb_spec k' k) as [->|Hne].
      * now rewrite E.
      * now destruct (own k' o).
Qed.

Lemma set_new_plain k v o :
  own k o = None -> array_index k = None -> set k v o = o ++ [(k, v)].
Proof. intros Hnew Hidx. unfold set. now rewrite Hnew, Hidx. Qed.

Lemma set_new_perm k v o :
  own k o = None -> Permutation (set k v o) (o ++ [(k, v)]).
Proof.
  intros Hnew. unfold set. rewrite Hnew.
  destruct (array_index k) as [n|]; [|reflexivity].
  rewrite insert_index_perm. apply Permutation_cons_append.
Qed.

Lemma keys_set_old k v w o :
  own k o = Some w -> keys (set k v o) = keys o.
Proof. intros Hold. unfold set. rewrite Hold. apply keys_update. Qed.

Lemma In_keys_set k' k v o :
  In k' (keys (set k v o)) <-> k' = k \/ In k' (keys o).
Proof.
  split.
  - intros Hin. apply In_keys_own in Hin as [w Hw].
    rewrite own_set in Hw.
    destruct (String.eqb_spec k' k) as [->|Hne]; [now left|].
    right. now apply own_In_keys in Hw.
  - intros Hin.
    assert (Hsome : exists w, own k' (set k v o) = Some w).
    { rewrite own_set. destruct (String.eqb_spec k' k) as [->|Hne].
      - now exists v.
      - destruct Hin as [->|Hin]; [contradiction|].
        now apply In_keys_own. }
    destruct Hsome as [w Hw]. now apply own_In_keys in Hw.
Qed.

Lemma NoDup_keys_set k v o : NoDup (keys o) -> NoDup (keys (set k v o)).
Proof.
  intros Hnd. destruct (own k o) as [w|] eqn:E.
  - now rewrite (keys_set_old _ _ _ _ E).
  - assert (Hperm : Permutation (keys (set k v o)) (keys (o ++ [(k, v)])))
      by (unfold keys; apply Permutation_map; now apply set_new_perm).
    apply (Permutation_NoDup (Permutation_sym Hperm)).
    unfold keys. rewrite map_app. simpl.
    apply (Permutation_NoDup (Permutation_cons_append _ _)).
    constructor; [now apply own_None_iff | exact Hnd].
Qed.

Lemma NoDup_keys_fold (entries : list (string * V)) : forall o,
  NoDup (keys o) ->
  NoDup (keys (fold_left (fun o kv => set (fst kv) (snd kv) o) entries o)).
Proof.
  induction entries as [|kv entries IH]; simpl; intros o Hnd; [exact Hnd|].
  apply IH. now apply NoDup_keys_set.
Qed.

(** The keys of an object are pairwise distinct. *)
Lemma wf_NoDup o : wf o -> NoDup (keys o).
Proof.
  unfold wf, literal. intros [Hwf _]. rewrite <- Hwf.
  apply NoDup_keys_fold. constructor.
Qed.

(** Defining fresh keys one after the other: the entries are those of
    the object followed by the new ones, up to the places array
    indices take. *)
Lemma fold_set_new_perm (entries : list (string * V)) : forall o,
  NoDup (map fst entries) ->
  (forall k, In k (map fst entries) -> own k o = None) ->
  Permutation
    (fold_left (fun o kv => set (fst kv) (snd kv) o) entries o)
    (o ++ entries).
Proof.
  induction entries as [|[k v] entries IH]; simpl; intros o Hnd Hnew.
  - now rewrite app_nil_r.
  - inversion Hnd as [|? ? Hnotin Hnd']; subst.
    rewrite IH; [| exact Hnd' |].
    + rewrite (set_new_perm k v o) by (apply Hnew; now left).
      now rewrite <- app_assoc.
    + intros k' Hin. rewrite own_set.
      destruct (String.eqb_spec k' k) as [->|Hne]; [contradiction|].
      apply Hnew. now right.
Qed.

Lemma fold_set_new_plain (entries : list (string * V)) : forall o,
  NoDup (map fst entries) ->
  (forall k, In k (map fst entries) -> own k o = None) ->
  (forall k, In k (map fst entries) -> array_index k = None) ->
  fold_left (fun o kv => set (fst kv) (snd kv) o) entries o = o ++ entries.
Proof.
  induction entries as [|[k v] entries IH]; simpl; intros o Hnd Hnew Hidx.
  - now rewrite app_nil_r.
  - inversion Hnd as [|? ? Hnotin Hnd']; subst.
    rewrite IH; [| exact Hnd' | |].
    + rewrite (set_new_plain k v o) by (try apply Hnew; try apply Hidx; now left).
      now rewrite <- app_assoc.
    + intros k' Hin. rewrite own_set.
      destruct (String.eqb_spec k' k) as [->|Hne]; [contradiction|].
      apply Hnew. now right.
    + intros k' Hin. apply Hidx. now right.
Qed.

End ObjectFacts.

Section ArrayFacts.
Context {A : Type}.

Lemma slice0_firstn (l : list A) (e : Z) :
  (0 <= e)%Z -> slice0 l e = firstn (Z.to_nat e) l.
Proof.
  intros He. unfold slice0.
  destruct (Z.ltb_spec e 0) as [Hlt|_]; [lia|].
  destruct (Z.le_gt_cases e (Z.of_nat (length l))) as [Hle|Hgt].
  - now rewrite Z.min_l.
  - rewrite Z.min_r by lia. rewrite Nat2Z.id, firstn_all.
    symmetry. apply firstn_all2. lia.
Qed.

Lemma slice0_length (l : list A) (e : Z) :
  (0 <= e)%Z -> length (slice0 l e) <= Z.to_nat e.
Proof.
  intros He. rewrite slice0_firstn by exact He. apply firstn_le_length.
Qed.

(** Neighbours of a list that is sorted link by link. *)
Lemma Sorted_neighbours (R : A -> A -> Prop) (pre post : list A) (x y : A) :
  Sorted R (pre ++ x :: y :: post) -> R x y.
Proof.
  induction pre as [|a pre IH]; simpl; intros Hs.
  - inversion Hs as [|? ? _ Hhd]; subst. now inversion Hhd.
  - inversion Hs; subst. now apply IH.
Qed.

Lemma neighbours_Sorted (R : A -> A -> Prop) (l : list A) :
  (forall pre x y post, l = pre ++ x :: y :: post -> R x y) -> Sorted R l.
Proof.
  induction l as [|a l IH]; intros Hn; constructor.
  - apply IH. intros pre x y post ->. now apply (Hn (a :: pre) x y post).
  - destruct l as [|b l]; constructor. now apply (Hn [] a b l).
Qed.

Variable c : A -> A -> Z.

Lemma insert_perm (x : A) (acc : list A) :
  Permutation (insert c x acc) (x :: acc).
Proof.
  induction acc as [|t acc IH]; simpl; [reflexivity|].
  destruct (0 <? c t x)%Z; [|reflexivity].
  rewrite IH. apply perm_swap.
Qed.

Lemma fold_insert_perm (l : list A) : forall acc,
  Permutation (fold_left (fun acc x => insert c x acc) l acc) (l ++ acc).
Proof.
  induction l as [|x l IH]; simpl; intros acc; [reflexivity|].
  rewrite IH, insert_perm. symmetry. apply Permutation_middle.
Qed.

Lemma insert_sorted (x : A) (acc : list A) :
  Sorted (fun a b => before c b a) acc ->
  Sorted (fun a b => before c b a) (insert c x acc).
Proof.
  induction acc as [|t acc IH]; simpl; intros Hs.
  - repeat constructor.
  - destruct (Z.ltb_spec 0 (c t x)) as [Hlt|Hle].
    + inversion Hs as [|? ? Hs' Hhd]; subst. constructor; [now apply IH|].
      destruct acc as [|t' acc]; simpl.
      * constructor. right. lia.
      * destruct (0 <? c t' x)%Z.
        -- constructor. now inversion Hhd.
        -- constructor. right. lia.
    + constructor; [exact Hs|]. constructor. now left.
Qed.

Lemma fold_insert_sorted (l : list A) : forall acc,
  Sorted (fun a b => before c b a) acc ->
  Sorted (fun a b => before c b a)
    (fold_left (fun acc x => insert c x acc) l acc).
Proof.
  induction l as [|x l IH]; simpl; intros acc Hs; [exact Hs|].
  apply IH. now apply insert_sorted.
Qed.

Lemma insertion_sort_perm (l : list A) : Permutation (insertion_sort c l) l.
Proof.
  unfold insertion_sort. rewrite <- Permutation_rev, fold_insert_perm.
  now rewrite app_nil_r.
Qed.

Lemma insertion_sort_neighbours (l pre post : list A) (x y : A) :
  insertion_sort c l = pre ++ x :: y :: post -> before c x y.
Proof.
  unfold insertion_sort. intros Hrev.
  apply (f_equal (@rev A)) in Hrev. rewrite rev_involutive in Hrev.
  rewrite rev_app_distr in Hrev. simpl in Hrev.
  rewrite <- !app_assoc in Hrev. simpl in Hrev.
  pose proof (fold_insert_sorted l [] (Sorted_nil _)) as Hs.
  rewrite Hrev in Hs.
  now apply Sorted_neighbours in Hs.
Qed.

End ArrayFacts.

(** The insertion sort keeps to what every engine keeps to. *)
Lemma insertion_lawful : Lawful insertion.
Proof.
  split; simpl.
  - intros A c l. apply insertion_sort_perm.
  - intros A c l pre post x y. apply insertion_sort_neighbours.
Qed.

End JsFacts.

(** * The decorator *)

Lemma append_assoc (a b c : string) :
  ((a ++ b) ++ c = a ++ b ++ c)%string.
Proof. induction a as [|x a IH]; simpl; [reflexivity | now rewrite IH]. Qed.

Lemma append_empty_r (a : string) : (a ++ "" = a)%string.
Proof. induction a as [|x a IH]; simpl; [reflexivity | now rewrite IH]. Qed.

Section Lookup.
Context `{Collaborators}.
Implicit Types (this : ResourceDecorator) (propertyPath : string).

(** A path that is a key of the map is answered with its decorator. *)
Lemma getPropertyByKey_own this propertyPath d :
  Js.own propertyPath (properties this) = Some d ->
  getPropertyByKey this propertyPath = Ok (Js.Own d).
Proof.
  intros Hown. unfold getPropertyByKey, Js.get. now rewrite Hown.
Qed.

(** A path that is neither a key of the map nor a name of
    [Object.prototype] is refused, and the message of the error holds
    the path and the name of the resource. *)
Lemma getPropertyByKey_missing this propertyPath :
  Js.own propertyPath (properties this) = None ->
  Js.inherited propertyPath = false ->
  exists message,
    getPropertyByKey this propertyPath =
      Throw (ConfigurationError message
               "tutorial-04-customizing-resources.html")
    /\ Js.includes message propertyPath
    /\ Js.includes message (getResourceName this).
Proof.
  intros Hown Hproto. unfold getPropertyByKey, Js.get.
  rewrite Hown, Hproto. simpl.
  eexists. split; [reflexivity|]. split.
  - exists "there is no property by the name of '",
      ("' in resource " ++ getResourceName this)%string.
    reflexivity.
  - exists ("there is no property by the name of '" ++ propertyPath
            ++ "' in resource ")%string, "".
    now rewrite append_empty_r, !append_assoc.
Qed.

(** A path that is no key of the map but a name of [Object.prototype]
    is answered with the inherited member. *)
Lemma getPropertyByKey_inherited this propertyPath :
  Js.own propertyPath (properties this) = None ->
  Js.inherited propertyPath = true ->
  getPropertyByKey this propertyPath = Ok (Js.Inherited propertyPath).
Proof.
  intros Hown Hproto. unfold getPropertyByKey, Js.get.
  now rewrite Hown, Hproto.
Qed.

Lemma mapM_getPropertyByKey this names ds :
  Forall2 (fun k d => Js.own k (properties this) = Some d) names ds ->
  mapM (getPropertyByKey this) names = Ok (map Js.Own ds).
Proof.
  induction 1 as [|k d names ds Hown _ IH]; simpl; [reflexivity|].
  rewrite (getPropertyByKey_own _ _ _ Hown). simpl. now rewrite IH.
Qed.

End Lookup.

(** ** Properties for a place *)

(** C1: when the options give a non-empty list of names for a place and
    every name is a key of the property map, [getProperties] returns the
    decorators stored under these names, in the order of the list; the
    positions, the visibility and [max] play no part. *)
Theorem getProperties_override `{Collaborators} `{Js.ArraySort}
    (this : ResourceDecorator) (where_ : PropertyPlace.t) (max : option Z)
    (names : list string) (ds : list PropertyDecorator) :
  whereProperties (options this) where_ = Some names ->
  names <> [] ->
  Forall2 (fun k d => Js.own k (properties this) = Some d) names ds ->
  getProperties this where_ max = Ok (map Js.Own ds).
Proof.
  intros Hopt Hne Hres. unfold getProperties. rewrite Hopt.
  destruct names as [|k names]; [contradiction|].
  cbn [length Nat.eqb].
  now apply mapM_getPropertyByKey.
Qed.

Lemma getProperties_override_witness :
  getProperties
    (Demo.decorate ["id"; "email"; "name"]
       (Demo.configure
          (Some [("name", {| Demo.position := Some 7%Z; Demo.isTitle := false;
                             Demo.hidden := true |})])
          (Some ["name"; "id"]) None))
    PropertyPlace.list (Some 1%Z)
  = Ok (map Js.Own
          [ {| property := Demo.column "name"; property_admin := tt;
               property_options :=
                 Js.Own {| Demo.position := Some 7%Z; Demo.isTitle := false;
                           Demo.hidden := true |} |};
            {| property := Demo.column "id"; property_admin := tt;
               property_options := Js.Undefined |} ]).
Proof.
  apply (getProperties_override _ _ _ ["name"; "id"]).
  - reflexivity.
  - discriminate.
  - repeat constructor.
Defined.

Section ListFacts.
Context {A B : Type}.

Lemma map_filter_snd (f : B -> bool) (l : list (A * B)) :
  map snd (filter (fun kv => f (snd kv)) l) = filter f (map snd l).
Proof.
  induction l as [|[a b] l IH]; simpl; [reflexivity|].
  destruct (f b); simpl; now rewrite IH.
Qed.

Lemma slice0_map (f : A -> B) (l : list A) (e : Z) :
  Js.slice0 (map f l) e = map f (Js.slice0 l e).
Proof. unfold Js.slice0. now rewrite length_map, firstn_map. Qed.

Lemma Sorted_map (R : B -> B -> Prop) (f : A -> B) (l : list A) :
  Sorted (fun x y => R (f x) (f y)) l -> Sorted R (map f l).
Proof.
  induction 1 as [|x l _ IH Hhd]; simpl; constructor; [exact IH|].
  destruct Hhd; simpl; now constructor.
Qed.

End ListFacts.

(** The comparison of [getProperties] never lets a property stand
    before one with a smaller position. *)
Lemma before_by_position `{Collaborators} (x y : string * PropertyDecorator) :
  Js.before by_position x y ->
  (PropertyDecorator_position (snd x) <= PropertyDecorator_position (snd y))%Z.
Proof.
  unfold Js.before, by_position. intros [Hxy|Hyx].
  - destruct (Z.gtb_spec (PropertyDecorator_position (snd x))
                (PropertyDecorator_position (snd y))); lia.
  - destruct (Z.gtb_spec (PropertyDecorator_position (snd y))
                (PropertyDecorator_position (snd x))); lia.
Qed.

(** Sorting by position rearranges the entries so that positions never
    decrease. *)
Lemma sort_by_position `{Collaborators} (S : Js.ArraySort)
    (entries : Js.Obj PropertyDecorator) :
  Js.Lawful S ->
  Permutation (map snd (Js.sort by_position entries)) (map snd entries)
  /\ StronglySorted Z.le
       (map PropertyDecorator_position
          (map snd (Js.sort by_position entries))).
Proof.
  intros [Hperm Hnb]. split.
  - apply Permutation_map, Hperm.
  - apply Sorted_StronglySorted; [intros a b c; apply Z.le_trans|].
    rewrite map_map. apply Sorted_map, JsFacts.neighbours_Sorted.
    intros pre x y post Hsplit.
    apply before_by_position. now apply (Hnb _ _ entries pre post).
Qed.

(** Without a list of names, or with an empty one, [getProperties] goes
    by visibility and position. *)
Lemma getProperties_no_names `{Collaborators} `{Js.ArraySort}
    (this : ResourceDecorator) (where_ : PropertyPlace.t) (max : option Z) :
  whereProperties (options this) where_ = None
  \/ whereProperties (options this) where_ = Some [] ->
  getProperties this where_ max =
  Ok (let sorted :=
        map snd
          (Js.sort by_position
             (filter (fun kv => PropertyDecorator_isVisible (snd kv) where_)
                (properties this))) in
      map Js.Own
        (if (or_default max =? 0)%Z then sorted
         else Js.slice0 sorted (or_default max))).
Proof.
  intros Hnone. unfold getProperties.
  assert (Hskip :
    match whereProperties (options this) where_ with
    | Some names => if (length names =? 0)%nat then None else Some names
    | None => None
    end = None) by (destruct Hnone as [-> | ->]; reflexivity).
  rewrite Hskip. cbv zeta. rewrite <- (map_map snd Js.Own).
  destruct (or_default max =? 0)%Z; [reflexivity|].
  now rewrite slice0_map.
Qed.

(** C2, amended: with no list of names for the place, [getProperties]
    returns the properties visible in that place, each once, in an order
    in which positions never decrease (properties with equal positions
    stand in the order the engine leaves them in), cut to the first [max]
    entries when [max] is positive. *)
Theorem getProperties_default `{Collaborators} (S : Js.ArraySort)
    (this : ResourceDecorator) (where_ : PropertyPlace.t) (max : option Z) :
  Js.Lawful S ->
  whereProperties (options this) where_ = None ->
  (0 <= or_default max)%Z ->
  exists l : list PropertyDecorator,
    Permutation l
      (filter (fun p => PropertyDecorator_isVisible p where_)
         (Js.values (properties this)))
    /\ StronglySorted Z.le (map PropertyDecorator_position l)
    /\ getProperties this where_ max =
         Ok (map Js.Own
               (if (or_default max =? 0)%Z then l
                else firstn (Z.to_nat (or_default max)) l)).
Proof.
  intros Hlaw Hnone Hmax.
  destruct (sort_by_position S
              (filter (fun kv => PropertyDecorator_isVisible (snd kv) where_)
                 (properties this)) Hlaw) as [Hperm Hsorted].
  eexists. split; [|split].
  - unfold Js.values. rewrite <- map_filter_snd. exact Hperm.
  - exact Hsorted.
  - rewrite (getProperties_no_names this where_ max (or_introl Hnone)).
    cbv zeta. now rewrite JsFacts.slice0_firstn.
Qed.

Lemma getProperties_default_witness :
  exists l : list PropertyDecorator,
    Permutation l
      (filter (fun p => PropertyDecorator_isVisible p PropertyPlace.show)
         (Js.values
            (properties
               (Demo.decorate ["id"; "email"; "name"]
                  (Demo.configure
                     (Some [("name", {| Demo.position := Some 1%Z;
                                        Demo.isTitle := false;
                                        Demo.hidden := false |});
                            ("id", {| Demo.position := None;
                                      Demo.isTitle := false;
                                      Demo.hidden := true |})])
                     None None)))))
    /\ StronglySorted Z.le (map PropertyDecorator_position l)
    /\ getProperties
         (Demo.decorate ["id"; "email"; "name"]
            (Demo.configure
               (Some [("name", {| Demo.position := Some 1%Z;
                                  Demo.isTitle := false;
                                  Demo.hidden := false |});
                      ("id", {| Demo.position := None;
                                Demo.isTitle := false;
                                Demo.hidden := true |})])
               None None))
         PropertyPlace.show (Some 1%Z)
       = Ok (map Js.Own
               (if (or_default (Some 1%Z) =? 0)%Z then l
                else firstn (Z.to_nat (or_default (Some 1%Z))) l)).
Proof.
  apply (getProperties_default Js.insertion).
  - exact JsFacts.insertion_lawful.
  - reflexivity.
  - simpl. lia.
Defined.

(** C2 as stated fails here: two properties that are given no position
    share one, and both are returned, so the positions of the result do
    not rise from each entry to the next. *)
Lemma getProperties_equal_positions :
  exists a b : PropertyDecorator,
    getProperties (Demo.decorate ["id"; "email"] Demo.no_options)
      PropertyPlace.show None = Ok [Js.Own a; Js.Own b]
    /\ PropertyDecorator_position a = 100%Z
    /\ PropertyDecorator_position b = 100%Z
    /\ (PropertyDecorator_position a <? PropertyDecorator_position b)%Z = false.
Proof.
  do 2 eexists. split; [reflexivity|]. repeat split.
Qed.

(** C10: a list of names that is empty counts as no list: the result is
    the one a decorator with the same property map and no list for that
    place gives, that is, the properties visible in the place, in an
    order in which positions never decrease, cut to the first [max]
    entries when [max] is positive. *)
Theorem getProperties_empty_override `{Collaborators} (S : Js.ArraySort)
    (this : ResourceDecorator) (where_ : PropertyPlace.t) (max : option Z) :
  whereProperties (options this) where_ = Some [] ->
  (forall that : ResourceDecorator,
     whereProperties (options that) where_ = None ->
     properties that = properties this ->
     getProperties this where_ max = getProperties that where_ max)
  /\ (Js.Lawful S ->
      (0 <= or_default max)%Z ->
      exists l : list PropertyDecorator,
        Permutation l
          (filter (fun p => PropertyDecorator_isVisible p where_)
             (Js.values (properties this)))
        /\ StronglySorted Z.le (map PropertyDecorator_position l)
        /\ getProperties this where_ max =
             Ok (map Js.Own
                   (if (or_default max =? 0)%Z then l
                    else firstn (Z.to_nat (or_default max)) l))).
Proof.
  intros Hthis. split.
  - intros that Hthat Hprops. unfold getProperties.
    now rewrite Hthis, Hthat, Hprops.
  - intros Hlaw Hmax.
    destruct (sort_by_position S
                (filter
                   (fun kv => PropertyDecorator_isVisible (snd kv) where_)
                   (properties this)) Hlaw) as [Hperm Hsorted].
    eexists. split; [|split].
    + unfold Js.values. rewrite <- map_filter_snd. exact Hperm.
    + exact Hsorted.
    + rewrite (getProperties_no_names this where_ max (or_intror Hthis)).
      cbv zeta. now rewrite JsFacts.slice0_firstn.
Qed.

Lemma getProperties_empty_override_witness :
  getProperties
    (Demo.decorate ["id"; "email"] (Demo.configure None (Some []) None))
    PropertyPlace.list None
  = getProperties (Demo.decorate ["id"; "email"] Demo.no_options)
      PropertyPlace.list None.
Proof.
  apply (proj1 (getProperties_empty_override Js.insertion
                  (Demo.decorate ["id"; "email"]
                     (Demo.configure None (Some []) None))
                  PropertyPlace.list None eq_refl));
    reflexivity.
Defined.

(** With an empty list of names the properties are returned all the
    same, here in the order of their positions. *)
Example getProperties_empty_override_run :
  getProperties
    (Demo.decorate ["id"; "email"]
       (Demo.configure
          (Some [("id", {| Demo.position := Some 1%Z; Demo.isTitle := false;
                           Demo.hidden := false |});
                 ("email", {| Demo.position := Some 2%Z;
                              Demo.isTitle := false;
                              Demo.hidden := false |})])
          (Some []) None))
    PropertyPlace.list None
  = Ok [ Js.Own {| property := Demo.column "id"; property_admin := tt;
                   property_options :=
                     Js.Own {| Demo.position := Some 1%Z;
                               Demo.isTitle := false;
                               Demo.hidden := false |} |};
         Js.Own {| property := Demo.column "email"; property_admin := tt;
                   property_options :=
                     Js.Own {| Demo.position := Some 2%Z;
                               Demo.isTitle := false;
                               Demo.hidden := false |} |} ].
Proof. reflexivity. Qed.

(** C8, amended: [getListProperties] is [getProperties] for the list
    with [max] 8, and it returns at most 8 entries when the options name
    no properties for the list. *)
Theorem getListProperties_cap `{Collaborators} `{Js.ArraySort}
    (this : ResourceDecorator) :
  getListProperties this = getProperties this PropertyPlace.list (Some 8%Z)
  /\ (listProperties (options this) = None
      \/ listProperties (options this) = Some [] ->
      exists l, getListProperties this = Ok l /\ length l <= 8).
Proof.
  split; [reflexivity|]. intros Hnone.
  unfold getListProperties, getProperties. simpl.
  eexists. split.
  - destruct Hnone as [-> | ->]; reflexivity.
  - apply (JsFacts.slice0_length _ 8%Z). lia.
Qed.

Lemma getListProperties_cap_witness :
  exists l,
    getListProperties
      (Demo.decorate ["a"; "b"; "c"; "d"; "e"; "f"; "g"; "h"; "i"; "j"]
         Demo.no_options) = Ok l
    /\ length l <= 8.
Proof.
  apply getListProperties_cap. left. reflexivity.
Defined.

(** C8 as stated fails here: with nine names given for the list,
    [getListProperties] returns nine entries. *)
Lemma getListProperties_nine :
  exists l,
    getListProperties
      (Demo.decorate ["a"; "b"; "c"; "d"; "e"; "f"; "g"; "h"; "i"]
         (Demo.configure None
            (Some ["a"; "b"; "c"; "d"; "e"; "f"; "g"; "h"; "i"]) None))
    = Ok l
    /\ length l = 9.
Proof.
  eexists. split; reflexivity.
Qed.

(** ** The title property *)

Lemma find_first {A : Type} (f : A -> bool) (pre post : list A) (t : A) :
  (forall q, In q pre -> f q = false) -> f t = true ->
  find f (pre ++ t :: post) = Some t.
Proof.
  induction pre as [|a pre IH]; simpl; intros Hpre Ht.
  - now rewrite Ht.
  - rewrite (Hpre a) by now left. apply IH; [|exact Ht].
    intros q Hq. apply Hpre. now right.
Qed.

Lemma find_nowhere {A : Type} (f : A -> bool) (l : list A) :
  (forall q, In q l -> f q = false) -> find f l = None.
Proof.
  induction l as [|a l IH]; simpl; intros Hl; [reflexivity|].
  rewrite (Hl a) by now left. apply IH. intros q Hq. apply Hl. now right.
Qed.

(** *** The first property of the map *)

(** Defining a key that is no array index leaves the first property of
    an object in place, unless it is the key of that property. *)
Lemma set_after_first {V : Type} (k0 k : string) (v0 v : V)
    (rest : Js.Obj V) :
  k <> k0 -> Js.array_index k = None ->
  Js.set k v ((k0, v0) :: rest) = (k0, v0) :: Js.set k v rest.
Proof.
  intros Hne Hidx. unfold Js.set. cbn [Js.own Js.update].
  destruct (String.eqb_spec k k0) as [Heq|_]; [contradiction|].
  destruct (Js.own k rest); [reflexivity|].
  now rewrite Hidx.
Qed.

Lemma set_first_plain {V : Type} (k : string) (v : V) :
  Js.array_index k = None -> Js.set k v Js.empty = [(k, v)].
Proof. intros Hidx. unfold Js.set. cbn [Js.own Js.empty]. now rewrite Hidx. Qed.

Section FirstProperty.
Context `{Host}.
Variables (admin : AdminBro) (options : ResourceOptions).
Variables (k0 : string) (v0 : PropertyDecorator).

(** The loop over the descriptors keeps the first property in place. *)
Lemma fold_descriptors_first (ps : list BaseProperty) : forall rest,
  ~ In k0 (map BaseProperty_name ps) ->
  (forall k, In k (map BaseProperty_name ps) -> Js.array_index k = None) ->
  exists rest',
    fold_left
      (fun memo property =>
         Js.set (BaseProperty_name property)
           {| property := property; property_admin := admin;
              property_options :=
                options_for options (BaseProperty_name property) |}
           memo)
      ps ((k0, v0) :: rest)
    = (k0, v0) :: rest'.
Proof.
  induction ps as [|q ps IH]; intros rest Hfresh Hidx; cbn [fold_left].
  - now exists rest.
  - rewrite set_after_first.
    + apply IH.
      * intros Hin. apply Hfresh. now right.
      * intros k Hin. apply Hidx. now right.
    + intros Heq. apply Hfresh. left. exact Heq.
    + apply Hidx. now left.
Qed.

(** So does the loop over the keys of the options, which defines only
    keys the object does not have. *)
Lemma fold_options_first (ks : list string) : forall rest,
  (forall k, In k ks -> Js.array_index k = None) ->
  exists rest',
    fold_left
      (fun properties key =>
         if negb (Js.truthy (Js.get properties key))
            && negb (Js.has_dot key)
         then
           let property := {| path := key; isSortable := false |} in
           Js.set key
             {| property := property; property_admin := admin;
                property_options := options_for options key |}
             properties
         else properties)
      ks ((k0, v0) :: rest)
    = (k0, v0) :: rest'.
Proof.
  induction ks as [|key ks IH]; intros rest Hidx; cbn [fold_left].
  - now exists rest.
  - assert (Hks : forall k, In k ks -> Js.array_index k = None).
    { intros k Hin. apply Hidx. now right. }
    destruct (negb (Js.truthy (Js.get ((k0, v0) :: rest) key))
              && negb (Js.has_dot key)) eqn:Hnew; [|now apply IH].
    apply andb_true_iff in Hnew. destruct Hnew as [Hnew _].
    rewrite set_after_first.
    + now apply IH.
    + intros ->. unfold Js.get in Hnew. cbn [Js.own] in Hnew.
      rewrite String.eqb_refl in Hnew. discriminate.
    + apply Hidx. now left.
Qed.

End FirstProperty.

(** When the name of the first descriptor is the name of no other
    descriptor, and no name and no key of the options is an array index,
    the first property of the decorated map wraps the first
    descriptor. *)
Lemma decorateProperties_first `{Host} (resource : BaseResource)
    (admin : AdminBro) (options : ResourceOptions)
    (first : BaseProperty) (others : list BaseProperty)
    (o : Js.Obj PropertyOptions) :
  options_properties options = Some o ->
  resource_properties resource = first :: others ->
  ~ In (BaseProperty_name first) (map BaseProperty_name others) ->
  (forall k,
     In k (map BaseProperty_name (resource_properties resource))
     \/ In k (Js.keys o) ->
     Js.array_index k = None) ->
  exists rest,
    decorateProperties resource admin options
    = (BaseProperty_name first,
       {| property := first; property_admin := admin;
          property_options := Js.get o (BaseProperty_name first) |})
      :: rest.
Proof.
  intros Hoptions Hdescriptors Hfresh Hidx.
  unfold decorateProperties. rewrite Hoptions, Hdescriptors.
  rewrite Hdescriptors in Hidx.
  cbn [fold_left].
  rewrite (set_first_plain (BaseProperty_name first))
    by (apply Hidx; left; cbn [map]; now left).
  replace (options_for options (BaseProperty_name first))
    with (Js.get o (BaseProperty_name first))
    by (unfold options_for; now rewrite Hoptions).
  destruct (fold_descriptors_first admin options (BaseProperty_name first)
              {| property := first; property_admin := admin;
                 property_options := Js.get o (BaseProperty_name first) |}
              others [] Hfresh) as [rest1 ->].
  { intros k Hin. apply Hidx. left. cbn [map]. now right. }
  apply fold_options_first. intros k Hin. apply Hidx. now right.
Qed.

(** C5, amended: on a property map that is not empty, [titleProperty]
    returns a property: the first one, in the order of the map, that
    says it is a title, whatever stands before it, and the first
    property of the map when none says so.  The order of the map is the
    order in which [Object.values] lists the properties; on a
    constructed decorator the first property of the map is the one of
    the first descriptor when no other descriptor has its name and no
    descriptor name and no key of [options.properties] is an array
    index. *)
Theorem titleProperty_first `{Collaborators} (this : ResourceDecorator)
    (p : PropertyDecorator) (rest : list PropertyDecorator) :
  Js.values (properties this) = p :: rest ->
  (exists t, titleProperty this = Some t)
  /\ (forall pre t post,
        p :: rest = pre ++ t :: post ->
        (forall q, In q pre -> PropertyDecorator_isTitle q = false) ->
        PropertyDecorator_isTitle t = true ->
        titleProperty this = Some t)
  /\ ((forall q, In q (p :: rest) -> PropertyDecorator_isTitle q = false) ->
      titleProperty this = Some p)
  /\ (forall resource admin options first others,
        this = new_ResourceDecorator resource admin options ->
        resource_properties resource = first :: others ->
        ~ In (BaseProperty_name first) (map BaseProperty_name others) ->
        (forall k,
           In k (map BaseProperty_name (resource_properties resource))
           \/ In k (Js.keys (or_empty (options_properties options))) ->
           Js.array_index k = None) ->
        p = {| property := first; property_admin := admin;
               property_options :=
                 Js.get (or_empty (options_properties options))
                   (BaseProperty_name first) |}).
Proof.
  intros Hvalues.
  assert (Hdeclared :
    forall resource admin options first others,
      this = new_ResourceDecorator resource admin options ->
      resource_properties resource = first :: others ->
      ~ In (BaseProperty_name first) (map BaseProperty_name others) ->
      (forall k,
         In k (map BaseProperty_name (resource_properties resource))
         \/ In k (Js.keys (or_empty (options_properties options))) ->
         Js.array_index k = None) ->
      p = {| property := first; property_admin := admin;
             property_options :=
               Js.get (or_empty (options_properties options))
                 (BaseProperty_name first) |}).
  { intros resource admin given first others -> Hdescriptors Hfresh Hidx.
    cbn [new_ResourceDecorator properties] in Hvalues.
    edestruct (decorateProperties_first resource admin) as [tail Htail];
      [ | exact Hdescriptors | exact Hfresh | | ].
    3: { rewrite Htail in Hvalues. cbn [Js.values map snd] in Hvalues.
         injection Hvalues as Hp _. symmetry. exact Hp. }
    - reflexivity.
    - exact Hidx. }
  unfold titleProperty. rewrite Hvalues. repeat split.
  - destruct (find PropertyDecorator_isTitle (p :: rest)) as [t|];
      [now exists t | now exists p].
  - intros pre t post -> Hpre Ht. now rewrite (find_first _ _ _ _ Hpre Ht).
  - intros Hnone. now rewrite (find_nowhere _ _ Hnone).
  - exact Hdeclared.
Qed.

Lemma titleProperty_first_witness :
  titleProperty
    (Demo.decorate ["id"; "email"; "name"]
       (Demo.configure
          (Some [("name", {| Demo.position := Some 500%Z;
                             Demo.isTitle := true;
                             Demo.hidden := false |})])
          None None))
  = Some {| property := Demo.column "name"; property_admin := tt;
            property_options :=
              Js.Own {| Demo.position := Some 500%Z; Demo.isTitle := true;
                        Demo.hidden := false |} |}.
Proof.
  refine (proj1 (proj2 (titleProperty_first _ _ _ _))
            [ {| property := Demo.column "id"; property_admin := tt;
                 property_options := Js.Undefined |};
              {| property := Demo.column "email"; property_admin := tt;
                 property_options := Js.Undefined |} ] _ [] _ _ _).
  - reflexivity.
  - reflexivity.
  - intros q [<-|[<-|[]]]; reflexivity.
  - reflexivity.
Defined.

(** C5 as written, with the order of the descriptors: for the
    descriptors ["name"] and ["0"], none of them a title,
    [titleProperty] returns the property of ["0"], the second
    descriptor, since [Object.values] lists the array index first. *)
Lemma titleProperty_index_name :
  resource_properties (Demo.table ["name"; "0"])
  = [Demo.column "name"; Demo.column "0"]
  /\ existsb PropertyDecorator_isTitle
       (Js.values (properties (Demo.decorate ["name"; "0"] Demo.no_options)))
     = false
  /\ titleProperty (Demo.decorate ["name"; "0"] Demo.no_options)
     = Some {| property := Demo.column "0"; property_admin := tt;
               property_options := Js.Undefined |}.
Proof. repeat split. Qed.

(** A key of the options that is an array index does the same: the
    property made for ["7"] comes before the one of the descriptor. *)
Example titleProperty_index_option :
  titleProperty
    (Demo.decorate ["name"]
       (Demo.configure (Some [("7", Demo.plain)]) None None))
  = Some {| property := {| path := "7"; isSortable := false |};
            property_admin := tt;
            property_options := Js.Own Demo.plain |}.
Proof. reflexivity. Qed.

(** ** Actions of the resource *)

(** C7: an action is among [resourceActions] for a user exactly when it
    is an action of the resource, is of the resource type, is visible to
    the user and is accessible to the user; an action that is not
    accessible to the user is left out, visible or not. *)
Theorem resourceActions_policy `{Collaborators} (this : ResourceDecorator)
    (currentAdmin : option CurrentAdmin) (a : ActionDecorator) :
  (In a (resourceActions this currentAdmin) <->
   In a (Js.values (actions this))
   /\ ActionDecorator_isResourceType a = true
   /\ ActionDecorator_isVisible a currentAdmin None = true
   /\ ActionDecorator_isAccessible a currentAdmin None = true)
  /\ (ActionDecorator_isAccessible a currentAdmin None = false ->
      ~ In a (resourceActions this currentAdmin)).
Proof.
  assert (Hiff :
    In a (resourceActions this currentAdmin) <->
    In a (Js.values (actions this))
    /\ ActionDecorator_isResourceType a = true
    /\ ActionDecorator_isVisible a currentAdmin None = true
    /\ ActionDecorator_isAccessible a currentAdmin None = true).
  { unfold resourceActions. rewrite filter_In, !andb_true_iff. tauto. }
  split; [exact Hiff|].
  intros Hno Hin. apply Hiff in Hin. destruct Hin as (_ & _ & _ & Hyes).
  congruence.
Qed.

(** ** The JSON of the resource *)

Lemma toJSON_parent `{Collaborators} `{Js.ArraySort}
    (this : ResourceDecorator) (currentAdmin : option CurrentAdmin)
    (json : ResourceJSON) :
  toJSON this currentAdmin = Ok json -> json_parent json = getParent this.
Proof.
  unfold toJSON.
  repeat match goal with
         | |- bind ?r _ = Ok _ -> _ => destruct r; simpl; [|discriminate]
         end.
  now intros [= <-].
Qed.

Lemma getProperties_default_own `{Collaborators} `{Js.ArraySort}
    (this : ResourceDecorator) (where_ : PropertyPlace.t) (max : option Z) :
  whereProperties (options this) where_ = None
  \/ whereProperties (options this) where_ = Some [] ->
  exists ds, getProperties this where_ max = Ok (map Js.Own ds).
Proof.
  intros Hnone. unfold getProperties.
  assert (Hskip :
    match whereProperties (options this) where_ with
    | Some names => if (length names =? 0)%nat then None else Some names
    | None => None
    end = None) by (destruct Hnone as [-> | ->]; reflexivity).
  rewrite Hskip. rewrite <- (map_map snd Js.Own).
  destruct (or_default max =? 0)%Z; eexists; [reflexivity|].
  now rewrite slice0_map.
Qed.

Lemma mapM_read_toJSON `{Collaborators} (ds : list PropertyDecorator) :
  mapM read_toJSON (map Js.Own ds) = Ok (map PropertyDecorator_toJSON ds).
Proof.
  induction ds as [|d ds IH]; simpl; [reflexivity | now rewrite IH].
Qed.

(** [toJSON] returns when the resource has a property and the options
    name no properties for any place. *)
Lemma toJSON_returns `{Collaborators} `{Js.ArraySort}
    (this : ResourceDecorator) (currentAdmin : option CurrentAdmin) :
  Js.values (properties this) <> [] ->
  (forall where_,
     whereProperties (options this) where_ = None
     \/ whereProperties (options this) where_ = Some []) ->
  exists json, toJSON this currentAdmin = Ok json.
Proof.
  intros Hsome Hnone. unfold toJSON.
  assert (Htitle : exists t, titleProperty this = Some t).
  { unfold titleProperty.
    destruct (find PropertyDecorator_isTitle (Js.values (properties this)))
      as [t|]; [now exists t|].
    destruct (Js.values (properties this)) as [|p rest];
      [contradiction | now exists p]. }
  destruct Htitle as [t ->]. simpl.
  destruct (getProperties_default_own this PropertyPlace.list
              (Some DEFAULT_MAX_COLUMNS_IN_LIST) (Hnone _)) as [l ->].
  destruct (getProperties_default_own this PropertyPlace.edit None (Hnone _))
    as [e ->].
  destruct (getProperties_default_own this PropertyPlace.show None (Hnone _))
    as [sh ->].
  destruct (getProperties_default_own this PropertyPlace.filter None (Hnone _))
    as [f ->].
  simpl. rewrite !mapM_read_toJSON. simpl. eexists. reflexivity.
Qed.

(** C9: when the options name no parent, the parent of the resource is
    named after the database, and its icon is ["icon-"] followed by the
    type of the database, or ["icon-database"] when the resource gives
    no type or an empty one; that parent is the parent of the JSON
    [toJSON] returns. *)
Theorem toJSON_parent_default `{Collaborators} `{Js.ArraySort}
    (this : ResourceDecorator) (currentAdmin : option CurrentAdmin) :
  options_parent (options this) = None ->
  parent_name (getParent this) = ParentString (databaseName (_resource this))
  /\ (forall t, databaseType (_resource this) = Some t -> t <> "" ->
        parent_icon (getParent this) = ("icon-" ++ t)%string)
  /\ (databaseType (_resource this) = None
      \/ databaseType (_resource this) = Some "" ->
      parent_icon (getParent this) = "icon-database")
  /\ (forall json,
        toJSON this currentAdmin = Ok json ->
        json_parent json = getParent this).
Proof.
  intros Hnone. unfold getParent. rewrite Hnone. simpl. repeat split.
  - intros t -> Ht. unfold Js.truthy_string.
    destruct (String.eqb_spec t "") as [->|_]; [contradiction | reflexivity].
  - intros [-> | ->]; reflexivity.
  - intros json Hjson. rewrite (toJSON_parent _ _ _ Hjson).
    unfold getParent. now rewrite Hnone.
Qed.

Lemma toJSON_parent_default_witness :
  exists json,
    toJSON (Demo.decorate ["id"; "email"] Demo.no_options) None = Ok json
    /\ parent_name (json_parent json) = ParentString "shop"
    /\ parent_icon (json_parent json) = "icon-mongodb".
Proof.
  eexists. split; [reflexivity|].
  destruct (toJSON_parent_default
              (Demo.decorate ["id"; "email"] Demo.no_options) None eq_refl)
    as (Hname & Hicon & _ & Hjson).
  rewrite (Hjson _ eq_refl). split; [exact Hname|].
  apply (Hicon "mongodb"); [reflexivity | discriminate].
Defined.

(** ** Looking a property up *)

(** C6, where the code departs from it: ["constructor"] is no key of the
    property map, and yet [getPropertyByKey] raises nothing; it hands
    out the member every object inherits under that name. *)
Theorem getPropertyByKey_constructor `{Collaborators}
    (this : ResourceDecorator) :
  Js.own "constructor" (properties this) = None ->
  getPropertyByKey this "constructor" = Ok (Js.Inherited "constructor").
Proof.
  intros Hown. now apply getPropertyByKey_inherited.
Qed.

Lemma getPropertyByKey_constructor_witness :
  getPropertyByKey (Demo.decorate ["id"; "email"] Demo.no_options)
    "constructor"
  = Ok (Js.Inherited "constructor").
Proof.
  apply getPropertyByKey_constructor. reflexivity.
Defined.

(** ** Decorating the properties *)

Section Decorating.
Context `{Host}.
Variables (admin : AdminBro) (options : ResourceOptions).
Variable o : Js.Obj PropertyOptions.
Hypothesis Hoptions : options_properties options = Some o.

Lemma existsb_eqb_In (k : string) (names : list string) :
  existsb (String.eqb k) names = true <-> In k names.
Proof.
  rewrite existsb_exists. split.
  - intros [x [Hin Heq]]. apply String.eqb_eq in Heq. now subst.
  - intros Hin. exists k. split; [exact Hin | apply String.eqb_refl].
Qed.

(** The first loop defines one property per descriptor. *)
Lemma fold_real (ps : list BaseProperty) : forall memo,
  fold_left
    (fun memo property =>
       Js.set (BaseProperty_name property)
         {| property := property; property_admin := admin;
            property_options :=
              options_for options (BaseProperty_name property) |}
         memo)
    ps memo
  = fold_left (fun o kv => Js.set (fst kv) (snd kv) o)
      (map (real_entry admin o) ps) memo.
Proof.
  induction ps as [|p ps IH]; simpl; intros memo; [reflexivity|].
  rewrite IH. unfold real_entry, options_for. now rewrite Hoptions.
Qed.

(** The second loop defines one property per key that names no
    descriptor and holds no dot, as long as no key of the options is a
    name of [Object.prototype]. *)
Lemma fold_synthetic (names ks : list string) : forall acc,
  NoDup ks ->
  (forall k, In k ks -> Js.inherited k = false) ->
  (forall k, In k ks -> (Js.own k acc = None <-> ~ In k names)) ->
  fold_left
    (fun properties key =>
       if negb (Js.truthy (Js.get properties key)) && negb (Js.has_dot key)
       then
         let property := {| path := key; isSortable := false |} in
         Js.set key
           {| property := property; property_admin := admin;
              property_options := options_for options key |}
           properties
       else properties)
    ks acc
  = fold_left (fun o kv => Js.set (fst kv) (snd kv) o)
      (map (synthetic_entry admin o)
         (filter (only_in_options names) ks))
      acc.
Proof.
  induction ks as [|k ks IH]; intros acc Hnd Hproto Hinv; [reflexivity|].
  inversion Hnd as [|? ? Hnotin Hnd']; subst.
  pose proof (Hproto k (in_eq _ _)) as Hk.
  pose proof (Hinv k (in_eq _ _)) as Hik.
  assert (Hcond :
    negb (Js.truthy (Js.get acc k)) = negb (existsb (String.eqb k) names)).
  { unfold Js.get. rewrite Hk.
    destruct (Js.own k acc) as [d|] eqn:E; simpl.
    - destruct (existsb (String.eqb k) names) eqn:Ex; [reflexivity|].
      exfalso.
      assert (Hno : ~ In k names).
      { intros Hin. apply existsb_eqb_In in Hin. congruence. }
      apply Hik in Hno. congruence.
    - destruct (existsb (String.eqb k) names) eqn:Ex; [|reflexivity].
      exfalso. apply existsb_eqb_In in Ex.
      now apply (proj1 Hik eq_refl). }
  assert (Hrest : forall acc',
    (forall k', k' <> k -> Js.own k' acc' = Js.own k' acc) ->
    forall k', In k' ks -> (Js.own k' acc' = None <-> ~ In k' names)).
  { intros acc' Hsame k' Hin. rewrite Hsame.
    - apply Hinv. now right.
    - intros ->. contradiction. }
  cbn [fold_left filter]. rewrite Hcond.
  change (only_in_options names k)
    with (negb (existsb (String.eqb k) names) && negb (Js.has_dot k)).
  destruct (negb (existsb (String.eqb k) names) && negb (Js.has_dot k)).
  - cbn [map fold_left].
    replace (options_for options k) with (Js.get o k)
      by (unfold options_for; now rewrite Hoptions).
    apply IH; [exact Hnd' | intros; apply Hproto; now right |].
    apply Hrest. intros k' Hne. cbn [synthetic_entry fst snd].
    rewrite JsFacts.own_set.
    now destruct (String.eqb_spec k' k).
  - apply IH; [exact Hnd' | intros; apply Hproto; now right |].
    now apply Hrest.
Qed.

Variable resource : BaseResource.

Let names : list string :=
  map BaseProperty_name (resource_properties resource).
Let extra : list string := filter (only_in_options names) (Js.keys o).
Let expected : Js.Obj PropertyDecorator :=
  map (real_entry admin o) (resource_properties resource)
  ++ map (synthetic_entry admin o) extra.

Hypothesis Hnames : NoDup names.
Hypothesis Hkeys : NoDup (Js.keys o).
Hypothesis Hproto : forall k, In k (Js.keys o) -> Js.inherited k = false.

Lemma keys_real : map fst (map (real_entry admin o) (resource_properties resource)) = names.
Proof. unfold names. rewrite map_map. reflexivity. Qed.

Lemma keys_synthetic (ks : list string) :
  map fst (map (synthetic_entry admin o) ks) = ks.
Proof. rewrite map_map. simpl. apply map_id. Qed.

Lemma extra_fresh k : In k extra -> ~ In k names.
Proof.
  unfold extra, only_in_options. rewrite filter_In, andb_true_iff.
  intros (_ & Hno & _) Hin. apply existsb_eqb_In in Hin.
  rewrite Hin in Hno. discriminate.
Qed.

Lemma decorateProperties_loops :
  decorateProperties resource admin options
  = fold_left (fun o kv => Js.set (fst kv) (snd kv) o)
      (map (synthetic_entry admin o) extra)
      (fold_left (fun o kv => Js.set (fst kv) (snd kv) o)
         (map (real_entry admin o) (resource_properties resource))
         Js.empty)
  /\ Permutation
       (fold_left (fun o kv => Js.set (fst kv) (snd kv) o)
          (map (real_entry admin o) (resource_properties resource))
          Js.empty)
       (map (real_entry admin o) (resource_properties resource)).
Proof.
  assert (Hstep1 :
    Permutation
      (fold_left (fun o kv => Js.set (fst kv) (snd kv) o)
         (map (real_entry admin o) (resource_properties resource))
         Js.empty)
      (map (real_entry admin o) (resource_properties resource))).
  { apply (JsFacts.fold_set_new_perm _ Js.empty).
    - now rewrite keys_real.
    - reflexivity. }
  split; [|exact Hstep1].
  unfold decorateProperties. rewrite Hoptions, fold_real.
  apply fold_synthetic; [exact Hkeys | exact Hproto |].
  intros k _. rewrite JsFacts.own_None_iff. unfold Js.keys.
  rewrite (Permutation_map fst Hstep1), keys_real. reflexivity.
Qed.

Lemma decorateProperties_expected :
  Permutation (decorateProperties resource admin options) expected
  /\ ((forall k, In k names \/ In k (Js.keys o) ->
       Js.array_index k = None) ->
      decorateProperties resource admin options = expected).
Proof.
  destruct decorateProperties_loops as [Hloops Hstep1].
  assert (Hfresh : forall k,
    In k (map fst (map (synthetic_entry admin o) extra)) ->
    Js.own k
      (fold_left (fun o kv => Js.set (fst kv) (snd kv) o)
         (map (real_entry admin o) (resource_properties resource))
         Js.empty) = None).
  { intros k. rewrite keys_synthetic. intros Hin.
    apply JsFacts.own_None_iff. unfold Js.keys.
    rewrite (Permutation_map fst Hstep1), keys_real.
    now apply extra_fresh. }
  assert (Hextra : NoDup (map fst (map (synthetic_entry admin o) extra))).
  { rewrite keys_synthetic. now apply NoDup_filter. }
  rewrite Hloops. split.
  - rewrite JsFacts.fold_set_new_perm by assumption.
    unfold expected. now apply Permutation_app_tail.
  - intros Hplain.
    rewrite JsFacts.fold_set_new_plain; [| exact Hextra | exact Hfresh |].
    + rewrite (JsFacts.fold_set_new_plain _ Js.empty);
        [reflexivity | now rewrite keys_real | reflexivity |].
      rewrite keys_real. intros k Hin. apply Hplain. now left.
    + rewrite keys_synthetic. intros k Hin. apply Hplain. right.
      unfold extra in Hin. now apply filter_In in Hin.
Qed.

End Decorating.

(** C3, amended: for descriptors with distinct names and options whose
    keys are no names of [Object.prototype], the decorated map holds one
    entry per descriptor, under its name, and one more entry, wrapping a
    property that is not sortable, for each key of [options.properties]
    that names no descriptor and holds no dot; a key with a dot that
    names no descriptor gets no entry.  When no name and no key is an
    array index, the entries of the descriptors come first, in the order
    of the descriptors, and the others follow in the order of the
    options. *)
Theorem decorateProperties_entries `{Collaborators} (resource : BaseResource)
    (admin : AdminBro) (options : ResourceOptions) :
  let o := or_empty (options_properties options) in
  let names := map BaseProperty_name (resource_properties resource) in
  let extra := filter (only_in_options names) (Js.keys o) in
  let expected :=
    map (real_entry admin o) (resource_properties resource)
    ++ map (synthetic_entry admin o) extra in
  let decorated := properties (new_ResourceDecorator resource admin options) in
  NoDup names ->
  Js.wf o ->
  (forall k, In k (Js.keys o) -> Js.inherited k = false) ->
  Permutation decorated expected
  /\ length decorated = length (resource_properties resource) + length extra
  /\ (forall k, Js.has_dot k = true -> ~ In k names ->
      Js.own k decorated = None)
  /\ ((forall k, In k names \/ In k (Js.keys o) -> Js.array_index k = None) ->
      decorated = expected).
Proof.
  intros o names extra expected decorated Hnames Hwf Hproto.
  assert (Hboth :
    Permutation decorated expected
    /\ ((forall k, In k names \/ In k (Js.keys o) -> Js.array_index k = None) ->
        decorated = expected)).
  { apply (decorateProperties_expected admin _ o);
      [reflexivity | exact Hnames | now apply JsFacts.wf_NoDup | exact Hproto]. }
  destruct Hboth as [Hperm Hplain]. repeat split; [exact Hperm | | | exact Hplain].
  - rewrite (Permutation_length Hperm). unfold expected.
    now rewrite length_app, !length_map.
  - intros k Hdot Hreal. apply JsFacts.own_None_iff. unfold Js.keys.
    rewrite (Permutation_map fst Hperm). unfold expected.
    rewrite map_app, keys_real, keys_synthetic, in_app_iff.
    intros [Hin|Hin]; [contradiction|].
    unfold extra, only_in_options in Hin. apply filter_In in Hin.
    rewrite Hdot, andb_false_r in Hin. now destruct Hin.
Qed.

Lemma decorateProperties_entries_witness :
  properties
    (Demo.decorate ["id"; "email"]
       (Demo.configure
          (Some [("email", Demo.plain); ("fullName", Demo.plain);
                 ("address.city", Demo.plain)])
          None None))
  = [ ("id", {| property := Demo.column "id"; property_admin := tt;
                property_options := Js.Undefined |});
      ("email", {| property := Demo.column "email"; property_admin := tt;
                   property_options := Js.Own Demo.plain |});
      ("fullName", {| property := {| path := "fullName"; isSortable := false |};
                      property_admin := tt;
                      property_options := Js.Own Demo.plain |}) ].
Proof.
  refine (proj2 (proj2 (proj2
            (decorateProperties_entries (Demo.table ["id"; "email"]) tt
               (Demo.configure
                  (Some [("email", Demo.plain); ("fullName", Demo.plain);
                         ("address.city", Demo.plain)])
                  None None) _ _ _))) _).
  - repeat constructor; simpl; intuition discriminate.
  - split; [reflexivity | simpl; intuition discriminate].
  - intros k [<-|[<-|[<-|[]]]]; reflexivity.
  - intros k [[<-|[<-|[]]] | [<-|[<-|[<-|[]]]]]; reflexivity.
Defined.

(** C3 as stated fails here: two descriptors of one name leave one
    entry in the map. *)
Lemma decorateProperties_same_name :
  length (resource_properties (Demo.table ["id"; "id"])) = 2
  /\ Js.keys (properties (Demo.decorate ["id"; "id"] Demo.no_options))
     = ["id"].
Proof. split; reflexivity. Qed.

(** A key of the options that is a name of [Object.prototype] gets no
    entry, though it names no descriptor and holds no dot. *)
Example decorateProperties_inherited_key :
  Js.keys
    (properties
       (Demo.decorate ["id"]
          (Demo.configure
             (Some [("toString", Demo.plain); ("fullName", Demo.plain)])
             None None)))
  = ["id"; "fullName"].
Proof. reflexivity. Qed.

(** A name that is an array index comes first in the map, wherever its
    descriptor stands. *)
Example decorateProperties_index_first :
  Js.keys (properties (Demo.decorate ["name"; "0"] Demo.no_options))
  = ["0"; "name"].
Proof. reflexivity. Qed.

(** ** Decorating the actions *)

Section Merging.
Context `{Collaborators}.



Lemma In_keys_merge (src : Js.Obj Action) : forall dst k,
  In k (Js.keys (merge dst src)) <-> In k (Js.keys dst) \/ In k (Js.keys src).
Proof.
  induction src as [|[k0 u0] src IH]; intros dst k.
  - simpl. tauto.
  - change (merge dst ((k0, u0) :: src))
      with (merge (Js.set k0 (merge_action (or_no_action (Js.own k0 dst)) u0) dst)
              src).
    rewrite IH, JsFacts.In_keys_set. simpl. intuition congruence.
Qed.

Lemma NoDup_keys_merge (src : Js.Obj Action) : forall dst,
  NoDup (Js.keys dst) -> NoDup (Js.keys (merge dst src)).
Proof.
  induction src as [|[k0 u0] src IH]; intros dst Hnd; [exact Hnd|].
  change (merge dst ((k0, u0) :: src))
    with (merge (Js.set k0 (merge_action (or_no_action (Js.own k0 dst)) u0) dst)
            src).
  apply IH. now apply JsFacts.NoDup_keys_set.
Qed.

(** What a loop that stores [f key value] for every entry of an object
    leaves under a key. *)
Lemma own_fold_store {V W : Type} (f : string -> V -> W)
    (l : Js.Obj V) : forall (acc : Js.Obj W) k,
  NoDup (Js.keys l) ->
  Js.own k
    (fold_left (fun ret kv => Js.set (fst kv) (f (fst kv) (snd kv)) ret) l acc)
  = match Js.own k l with
    | Some a => Some (f k a)
    | None => Js.own k acc
    end.
Proof.
  induction l as [|[k0 a0] l IH]; intros acc k Hnd; [reflexivity|].
  inversion Hnd as [|? ? Hnotin Hnd']; subst.
  cbn [fold_left fst snd]. rewrite (IH _ k Hnd'), JsFacts.own_set. simpl.
  destruct (String.eqb_spec k k0) as [->|Hne]; [|reflexivity].
  apply JsFacts.own_None_iff in Hnotin. now rewrite Hnotin.
Qed.

Variables (resource : BaseResource) (admin : AdminBro).
Variable options : ResourceOptions.

Let user : Js.Obj Action := or_empty (options_actions options).
Let merged : Js.Obj Action := merge (merge Js.empty ACTIONS) user.

Lemma NoDup_keys_merged : NoDup (Js.keys merged).
Proof. unfold merged. do 2 apply NoDup_keys_merge. constructor. Qed.

Lemma own_decorateActions k :
  Js.own k (decorateActions resource admin options) =
  match Js.own k merged with
  | Some a =>
      Some {| action := with_defaults k a; action_admin := admin;
              action_resource := resource |}
  | None => None
  end.
Proof.
  unfold decorateActions. fold user. fold merged.
  apply (own_fold_store
           (fun key a => {| action := with_defaults key a;
                            action_admin := admin;
                            action_resource := resource |})
           merged Js.empty k NoDup_keys_merged).
Qed.

Hypothesis HACTIONS : NoDup (Js.keys ACTIONS).
Hypothesis Huser : NoDup (Js.keys user).


End Merging.



(** * Further properties of the decorator *)

(** ** Lookups *)

Lemma truthy_get_false {V : Type} (o : Js.Obj V) (k : string) :
  Js.truthy (Js.get o k) = false <->
  Js.own k o = None /\ Js.inherited k = false.
Proof.
  unfold Js.get. destruct (Js.own k o) as [v|]; simpl.
  - split; [discriminate | intros [? _]; discriminate].
  - destruct (Js.inherited k); simpl; split; try discriminate; auto.
    intros [_ ?]; discriminate.
Qed.

Lemma getPropertyByKey_truthy `{Collaborators} (this : ResourceDecorator)
    (propertyPath : string) :
  Js.truthy (Js.get (properties this) propertyPath) = true ->
  getPropertyByKey this propertyPath
  = Ok (Js.get (properties this) propertyPath).
Proof. intros Hyes. unfold getPropertyByKey. now rewrite Hyes. Qed.

(** X1: [getPropertyByKey] throws exactly for the paths that are no key
    of the property map and no name of [Object.prototype]; what it
    throws is always the [ConfigurationError] that points at the page on
    customizing resources, with the path and the name of the resource in
    its message; for every other path it returns what the property map
    yields under the path. *)
Theorem getPropertyByKey_throws_iff `{Collaborators}
    (this : ResourceDecorator) (propertyPath : string) :
  (Js.own propertyPath (properties this) = None
   /\ Js.inherited propertyPath = false ->
   exists message,
     getPropertyByKey this propertyPath =
       Throw (ConfigurationError message
                "tutorial-04-customizing-resources.html")
     /\ Js.includes message propertyPath
     /\ Js.includes message (getResourceName this))
  /\ (forall e,
        getPropertyByKey this propertyPath = Throw e ->
        Js.own propertyPath (properties this) = None
        /\ Js.inherited propertyPath = false
        /\ exists message,
             e = ConfigurationError message
                   "tutorial-04-customizing-resources.html")
  /\ (forall r,
        getPropertyByKey this propertyPath = Ok r ->
        r = Js.get (properties this) propertyPath /\ r <> Js.Undefined).
Proof.
  split; [|split].
  - intros [Hown Hproto]. now apply getPropertyByKey_missing.
  - intros e He.
    destruct (Js.truthy (Js.get (properties this) propertyPath)) eqn:Ht.
    + rewrite (getPropertyByKey_truthy _ _ Ht) in He. discriminate.
    + apply truthy_get_false in Ht. destruct Ht as [Hown Hproto].
      destruct (getPropertyByKey_missing this propertyPath Hown Hproto)
        as (message & Hthrow & _).
      rewrite Hthrow in He. injection He as <-.
      repeat split; try assumption. now exists message.
  - intros r Hr.
    destruct (Js.truthy (Js.get (properties this) propertyPath)) eqn:Ht.
    + rewrite (getPropertyByKey_truthy _ _ Ht) in Hr. injection Hr as <-.
      split; [reflexivity|]. intros Hu. rewrite Hu in Ht. discriminate.
    + unfold getPropertyByKey in Hr. rewrite Ht in Hr. discriminate.
Qed.

Lemma getPropertyByKey_throws_iff_witness :
  exists message,
    getPropertyByKey (Demo.decorate ["id"; "email"] Demo.no_options) "nope"
    = Throw (ConfigurationError message
               "tutorial-04-customizing-resources.html")
    /\ Js.includes message "nope"
    /\ Js.includes message
         (getResourceName (Demo.decorate ["id"; "email"] Demo.no_options)).
Proof.
  apply (proj1 (getPropertyByKey_throws_iff
                  (Demo.decorate ["id"; "email"] Demo.no_options) "nope")).
  split; reflexivity.
Defined.

(** ** The branch of [getProperties] that goes by names *)

Lemma mapM_getPropertyByKey_all `{Collaborators} (this : ResourceDecorator)
    (names : list string) :
  (forall k, In k names -> Js.truthy (Js.get (properties this) k) = true) ->
  mapM (getPropertyByKey this) names = Ok (map (Js.get (properties this)) names).
Proof.
  induction names as [|k names IH]; intros Hall; [reflexivity|].
  cbn [mapM map]. rewrite getPropertyByKey_truthy by (apply Hall; now left).
  cbn [bind]. rewrite IH; [reflexivity|].
  intros k' Hin. apply Hall. now right.
Qed.

Lemma mapM_getPropertyByKey_first `{Collaborators} (this : ResourceDecorator)
    (pre post : list string) (k : string) :
  (forall k', In k' pre -> Js.truthy (Js.get (properties this) k') = true) ->
  mapM (getPropertyByKey this) (pre ++ k :: post) =
  r <- getPropertyByKey this k ;;
  rs <- mapM (getPropertyByKey this) post ;;
  Ok (map (Js.get (properties this)) pre ++ r :: rs).
Proof.
  induction pre as [|k0 pre IH]; intros Hall.
  - cbn [app mapM map]. now destruct (getPropertyByKey this k).
  - cbn [app mapM map].
    rewrite getPropertyByKey_truthy by (apply Hall; now left).
    cbn [bind]. rewrite IH by (intros k' Hin; apply Hall; now right).
    destruct (getPropertyByKey this k) as [r|e]; [|reflexivity].
    cbn [bind].
    now destruct (mapM (getPropertyByKey this) post).
Qed.

(** X2: with a non-empty list of names for the place, [getProperties]
    looks the names up from left to right: when every name finds
    something, the result holds what each name finds, in the order of
    the list; otherwise the call throws the [ConfigurationError] of the
    first name that finds nothing, and visibility, position and [max]
    play no part either way. *)
Theorem getProperties_override_lookup `{Collaborators} `{Js.ArraySort}
    (this : ResourceDecorator) (where_ : PropertyPlace.t) (max : option Z)
    (names : list string) :
  whereProperties (options this) where_ = Some names ->
  names <> [] ->
  ((forall k, In k names ->
      Js.truthy (Js.get (properties this) k) = true) ->
   getProperties this where_ max
   = Ok (map (Js.get (properties this)) names))
  /\ (forall pre k post,
        names = pre ++ k :: post ->
        (forall k', In k' pre ->
           Js.truthy (Js.get (properties this) k') = true) ->
        Js.truthy (Js.get (properties this) k) = false ->
        exists message,
          getProperties this where_ max =
            Throw (ConfigurationError message
                     "tutorial-04-customizing-resources.html")
          /\ Js.includes message k).
Proof.
  intros Hopt Hne.
  assert (Hbranch :
    getProperties this where_ max = mapM (getPropertyByKey this) names).
  { unfold getProperties. rewrite Hopt.
    destruct names as [|k names]; [contradiction | reflexivity]. }
  rewrite Hbranch. split.
  - apply mapM_getPropertyByKey_all.
  - intros pre k post -> Hpre Hk. apply truthy_get_false in Hk.
    destruct Hk as [Hown Hproto].
    destruct (getPropertyByKey_missing this k Hown Hproto)
      as (message & Hthrow & Hpath & _).
    exists message. split; [|exact Hpath].
    rewrite (mapM_getPropertyByKey_first this pre post k Hpre), Hthrow.
    reflexivity.
Qed.

Lemma getProperties_override_lookup_witness :
  exists message,
    getProperties
      (Demo.decorate ["id"; "email"]
         (Demo.configure None (Some ["email"; "nope"; "gone"]) None))
      PropertyPlace.list (Some 1%Z)
    = Throw (ConfigurationError message
               "tutorial-04-customizing-resources.html")
    /\ Js.includes message "nope".
Proof.
  apply (proj2 (getProperties_override_lookup
                  (Demo.decorate ["id"; "email"]
                     (Demo.configure None (Some ["email"; "nope"; "gone"])
                        None))
                  PropertyPlace.list (Some 1%Z) ["email"; "nope"; "gone"]
                  eq_refl ltac:(discriminate))
           ["email"] "nope" ["gone"]).
  - reflexivity.
  - intros k' [<-|[]]. reflexivity.
  - reflexivity.
Defined.

(** ** The cut of [getProperties] *)

Lemma slice0_negative {A : Type} (l : list A) (e : Z) :
  (e < 0)%Z -> Js.slice0 l e = firstn (length l - Z.to_nat (- e)) l.
Proof.
  intros He. unfold Js.slice0.
  destruct (Z.ltb_spec e 0) as [_|Hge]; [|lia].
  f_equal. lia.
Qed.

(** X3: without names for the place, what [getProperties] returns for a
    [max] is a prefix of what it returns without [max]: the whole list
    for 0, its first [max] entries for a positive [max], and the list
    without its last [-max] entries for a negative [max]. *)
Theorem getProperties_max_prefix `{Collaborators} `{Js.ArraySort}
    (this : ResourceDecorator) (where_ : PropertyPlace.t) :
  whereProperties (options this) where_ = None
  \/ whereProperties (options this) where_ = Some [] ->
  exists l,
    getProperties this where_ None = Ok l
    /\ forall m : Z,
         getProperties this where_ (Some m) =
         Ok (if (m =? 0)%Z then l
             else if (m <? 0)%Z then firstn (length l - Z.to_nat (- m)) l
             else firstn (Z.to_nat m) l).
Proof.
  intros Hnone. eexists. split.
  - rewrite (getProperties_no_names this where_ None Hnone). reflexivity.
  - intros m. rewrite (getProperties_no_names this where_ (Some m) Hnone).
    cbv zeta. cbn [or_default].
    destruct (Z.eqb_spec m 0) as [->|Hm]; [reflexivity|].
    rewrite <- slice0_map.
    destruct (Z.ltb_spec m 0) as [Hneg|Hpos].
    + now rewrite slice0_negative.
    + rewrite JsFacts.slice0_firstn by exact Hpos. reflexivity.
Qed.

Lemma getProperties_max_prefix_witness :
  exists l,
    getProperties (Demo.decorate ["id"; "email"; "name"] Demo.no_options)
      PropertyPlace.show None = Ok l
    /\ forall m : Z,
         getProperties (Demo.decorate ["id"; "email"; "name"] Demo.no_options)
           PropertyPlace.show (Some m) =
         Ok (if (m =? 0)%Z then l
             else if (m <? 0)%Z then firstn (length l - Z.to_nat (- m)) l
             else firstn (Z.to_nat m) l).
Proof.
  apply getProperties_max_prefix. left. reflexivity.
Defined.

(** With [max] -1 the last of three properties, the one with the
    greatest position, is dropped. *)
Example getProperties_max_negative :
  getProperties
    (Demo.decorate ["id"; "email"; "name"]
       (Demo.configure
          (Some [("id", {| Demo.position := Some 1%Z; Demo.isTitle := false;
                           Demo.hidden := false |});
                 ("email", {| Demo.position := Some 2%Z;
                              Demo.isTitle := false;
                              Demo.hidden := false |});
                 ("name", {| Demo.position := Some 3%Z;
                             Demo.isTitle := false;
                             Demo.hidden := false |})])
          None None))
    PropertyPlace.show (Some (-1)%Z)
  = Ok [ Js.Own {| property := Demo.column "id"; property_admin := tt;
                   property_options :=
                     Js.Own {| Demo.position := Some 1%Z;
                               Demo.isTitle := false;
                               Demo.hidden := false |} |};
         Js.Own {| property := Demo.column "email"; property_admin := tt;
                   property_options :=
                     Js.Own {| Demo.position := Some 2%Z;
                               Demo.isTitle := false;
                               Demo.hidden := false |} |} ].
Proof. reflexivity. Qed.

(** ** The decorated property map, whatever the input *)

Lemma fold_left_invariant {A B : Type} (P : A -> Prop) (f : A -> B -> A)
    (l : list B) : forall a,
  P a -> (forall a x, In x l -> P a -> P (f a x)) -> P (fold_left f l a).
Proof.
  induction l as [|x l IH]; simpl; intros a Ha Hstep; [exact Ha|].
  apply IH; [apply Hstep; auto | intros a' x' Hin; apply Hstep; auto].
Qed.

Lemma Forall_set {V : Type} (P : string * V -> Prop) (k : string) (v : V)
    (o : Js.Obj V) :
  Forall P o -> P (k, v) -> Forall P (Js.set k v o).
Proof.
  intros Ho Hkv.
  assert (Hupd : Forall P (Js.update k v o)).
  { clear -Ho Hkv. induction Ho as [|[k' v'] o Hk' Ho IH]; simpl.
    - constructor.
    - destruct (String.eqb_spec k k') as [->|Hne]; constructor; auto. }
  unfold Js.set. destruct (Js.own k o); [exact Hupd|].
  destruct (Js.array_index k).
  - apply (Permutation_Forall
             (Permutation_sym (JsFacts.insert_index_perm _ k v o))).
    now constructor.
  - apply Forall_app. split; [exact Ho | now repeat constructor].
Qed.

Section Decorated.
Context `{Host}.
Variables (resource : BaseResource) (admin : AdminBro).
Variable options : ResourceOptions.

Let names : list string :=
  map BaseProperty_name (resource_properties resource).

Lemma In_keys_fold_names (ps : list BaseProperty) (k : string) :
  forall memo,
  In k
    (Js.keys
       (fold_left
          (fun memo property =>
             Js.set (BaseProperty_name property)
               {| property := property; property_admin := admin;
                  property_options :=
                    options_for options (BaseProperty_name property) |}
               memo)
          ps memo))
  <-> In k (Js.keys memo) \/ In k (map BaseProperty_name ps).
Proof.
  induction ps as [|p ps IH]; intros memo; simpl; [tauto|].
  rewrite IH, JsFacts.In_keys_set. intuition congruence.
Qed.

Lemma decorateProperties_invariant :
  NoDup (Js.keys (decorateProperties resource admin options))
  /\ Forall (decorated_entry resource admin options)
       (decorateProperties resource admin options).
Proof.
  unfold decorateProperties.
  set (step1 := fold_left _ (resource_properties resource) Js.empty).
  assert (H1 : NoDup (Js.keys step1)
               /\ Forall (decorated_entry resource admin options) step1).
  { unfold step1.
    apply (fold_left_invariant
             (fun o => NoDup (Js.keys o)
                       /\ Forall (decorated_entry resource admin options) o)).
    - split; constructor.
    - intros memo p Hin [Hnd Hall]. split.
      + now apply JsFacts.NoDup_keys_set.
      + apply Forall_set; [exact Hall|].
        unfold decorated_entry. cbn [fst snd property property_admin
                                      property_options].
        repeat split. left. split; [|exact Hin].
        now apply in_map. }
  assert (Hnames : forall k, In k names -> In k (Js.keys step1)).
  { intros k Hin. unfold step1. apply In_keys_fold_names. now right. }
  destruct (options_properties options) as [o|]; [|exact H1].
  apply (fold_left_invariant
           (fun o => (forall k, In k names -> In k (Js.keys o))
                     /\ NoDup (Js.keys o)
                     /\ Forall (decorated_entry resource admin options) o)
           _ (Js.keys o) step1 (conj Hnames H1)).
  intros acc key _ (Hsup & Hnd & Hall).
  destruct (Js.truthy (Js.get acc key)) eqn:Ht; cbn [negb andb];
    [now repeat split|].
  destruct (Js.has_dot key); cbn [negb]; [now repeat split|].
  apply truthy_get_false in Ht. destruct Ht as [Hown _].
  apply JsFacts.own_None_iff in Hown.
  repeat split.
  - intros k Hin. apply JsFacts.In_keys_set. right. now apply Hsup.
  - now apply JsFacts.NoDup_keys_set.
  - apply Forall_set; [exact Hall|].
    unfold decorated_entry. cbn [fst snd property property_admin
                                  property_options].
    repeat split. right. split; [|reflexivity].
    intros Hin. apply Hown. now apply Hsup.
Qed.

Lemma In_keys_fold_options (ks : list string) (k : string) : forall acc,
  In k
    (Js.keys
       (fold_left
          (fun properties key =>
             if negb (Js.truthy (Js.get properties key))
                && negb (Js.has_dot key)
             then
               let property := {| path := key; isSortable := false |} in
               Js.set key
                 {| property := property; property_admin := admin;
                    property_options := options_for options key |}
                 properties
             else properties)
          ks acc))
  <-> In k (Js.keys acc)
      \/ (In k ks /\ Js.has_dot k = false /\ Js.inherited k = false).
Proof.
  induction ks as [|key ks IH]; intros acc; cbn [fold_left].
  - simpl. tauto.
  - rewrite IH.
    destruct (Js.truthy (Js.get acc key)) eqn:Ht; cbn [negb andb].
    + assert (Hold : Js.inherited key = false -> In key (Js.keys acc)).
      { intros Hproto. unfold Js.get in Ht. rewrite Hproto in Ht.
        destruct (Js.own key acc) as [d|] eqn:E; [|discriminate].
        now apply JsFacts.own_In_keys in E. }
      simpl. split.
      * intros [Hin|(Hin & Hd & Hp)]; [now left | auto].
      * intros [Hin|([<-|Hin] & Hd & Hp)]; auto.
    + destruct (Js.has_dot key) eqn:Hdot; cbn [negb].
      * simpl. split.
        -- intros [Hin|(Hin & Hd & Hp)]; [now left | auto].
        -- intros [Hin|([<-|Hin] & Hd & Hp)]; auto. congruence.
      * apply truthy_get_false in Ht. destruct Ht as [_ Hproto].
        rewrite JsFacts.In_keys_set. simpl. split.
        -- intros [[->|Hin]|(Hin & Hd & Hp)]; auto.
        -- intros [Hin|([<-|Hin] & Hd & Hp)]; auto.
Qed.

Lemma In_keys_decorateProperties (k : string) :
  In k (Js.keys (decorateProperties resource admin options))
  <-> In k names
      \/ (In k (Js.keys (or_empty (options_properties options)))
          /\ Js.has_dot k = false /\ Js.inherited k = false).
Proof.
  unfold decorateProperties.
  destruct (options_properties options) as [o|]; cbn [or_empty].
  - rewrite In_keys_fold_options, In_keys_fold_names. simpl. tauto.
  - rewrite In_keys_fold_names. simpl. tauto.
Qed.

End Decorated.

Lemma inherited_no_dot (k : string) :
  Js.inherited k = true -> Js.has_dot k = false.
Proof.
  unfold Js.inherited. intros Hk.
  apply existsb_exists in Hk as [n [Hin Heq]].
  apply String.eqb_eq in Heq. subst n.
  simpl in Hin.
  repeat (destruct Hin as [<-|Hin]; [reflexivity|]). contradiction.
Qed.

Lemma whereProperties_new `{Collaborators} (resource : BaseResource)
    (admin : AdminBro) (given : ResourceOptions) (where_ : PropertyPlace.t) :
  whereProperties (options (new_ResourceDecorator resource admin given)) where_
  = whereProperties given where_.
Proof. now destruct where_. Qed.

Lemma properties_new_In `{Collaborators} (resource : BaseResource)
    (admin : AdminBro) (options : ResourceOptions) (k : string)
    (d : PropertyDecorator) :
  In (k, d) (properties (new_ResourceDecorator resource admin options)) ->
  BaseProperty_name (property d) = k
  /\ property_options d = Js.get (or_empty (options_properties options)) k
  /\ (In k (map BaseProperty_name (resource_properties resource))
      /\ In (property d) (resource_properties resource)
      \/ ~ In k (map BaseProperty_name (resource_properties resource))
         /\ property d = {| path := k; isSortable := false |}).
Proof.
  intros Hin. cbn [new_ResourceDecorator properties] in Hin.
  match type of Hin with
  | In _ (decorateProperties _ _ ?o) =>
      destruct (decorateProperties_invariant resource admin o) as [_ Hall]
  end.
  rewrite Forall_forall in Hall. apply Hall in Hin.
  destruct Hin as (Hname & _ & Hopt & Hkind). cbn [fst snd] in *.
  split; [exact Hname|]. split; [exact Hopt | exact Hkind].
Qed.

Lemma properties_new_entries `{Collaborators} (resource : BaseResource)
    (admin : AdminBro) (options : ResourceOptions) (k : string)
    (d : PropertyDecorator) :
  Js.own k (properties (new_ResourceDecorator resource admin options)) = Some d ->
  BaseProperty_name (property d) = k
  /\ property_options d = Js.get (or_empty (options_properties options)) k
  /\ (In k (map BaseProperty_name (resource_properties resource))
      /\ In (property d) (resource_properties resource)
      \/ ~ In k (map BaseProperty_name (resource_properties resource))
         /\ property d = {| path := k; isSortable := false |}).
Proof.
  intros Hown. apply JsFacts.own_Some_In in Hown.
  exact (properties_new_In resource admin options k d Hown).
Qed.

Lemma getPropertyByKey_Own `{Collaborators} (this : ResourceDecorator)
    (propertyPath : string) (d : PropertyDecorator) :
  getPropertyByKey this propertyPath = Ok (Js.Own d) ->
  Js.own propertyPath (properties this) = Some d.
Proof.
  unfold getPropertyByKey, Js.get.
  destruct (Js.own propertyPath (properties this)) as [d'|]; simpl.
  - now intros [= ->].
  - destruct (Js.inherited propertyPath); simpl; discriminate.
Qed.

(** X4: in the property map of a decorator, whatever the resource and
    the options are, the keys are pairwise distinct and each is the name
    of the property stored under it; so a decorator that
    [getPropertyByKey] returns for a path wraps a property of that name,
    set up with the options the user gave under that path. *)
Theorem properties_keyed_by_name `{Collaborators} (resource : BaseResource)
    (admin : AdminBro) (options : ResourceOptions) :
  let this := new_ResourceDecorator resource admin options in
  NoDup (Js.keys (properties this))
  /\ map (fun d => BaseProperty_name (property d)) (Js.values (properties this))
     = Js.keys (properties this)
  /\ (forall propertyPath d,
        getPropertyByKey this propertyPath = Ok (Js.Own d) ->
        BaseProperty_name (property d) = propertyPath
        /\ property_options d
           = Js.get (or_empty (options_properties options)) propertyPath).
Proof.
  intros this. split; [|split].
  - unfold this. cbn [new_ResourceDecorator properties].
    apply decorateProperties_invariant.
  - assert (Hall : forall k d, In (k, d) (properties this) ->
                     BaseProperty_name (property d) = k).
    { intros k d Hin.
      exact (proj1 (properties_new_In resource admin options k d Hin)). }
    unfold Js.values, Js.keys. rewrite map_map.
    induction (properties this) as [|[k d] o IH]; [reflexivity|].
    cbn [map fst snd]. rewrite (Hall k d) by now left.
    f_equal. apply IH. intros k' d' Hin. apply Hall. now right.
  - intros propertyPath d Hget. apply getPropertyByKey_Own in Hget.
    destruct (properties_new_entries resource admin options _ _ Hget)
      as (Hn & Ho & _).
    now split.
Qed.

Lemma In_keys_new `{Collaborators} (resource : BaseResource)
    (admin : AdminBro) (options : ResourceOptions) (k : string) :
  In k (Js.keys (properties (new_ResourceDecorator resource admin options)))
  <-> In k (map BaseProperty_name (resource_properties resource))
      \/ (In k (Js.keys (or_empty (options_properties options)))
          /\ Js.has_dot k = false /\ Js.inherited k = false).
Proof.
  cbn [new_ResourceDecorator properties].
  rewrite In_keys_decorateProperties. reflexivity.
Qed.

(** X5: the paths for which [getPropertyByKey] returns a decorator are
    the names of the descriptors of the resource together with the keys
    of [options.properties] that hold no dot and are no name of
    [Object.prototype]; no other path has an entry in the property
    map. *)
Theorem getPropertyByKey_resolves_iff `{Collaborators}
    (resource : BaseResource) (admin : AdminBro) (options : ResourceOptions)
    (propertyPath : string) :
  (exists d,
     getPropertyByKey (new_ResourceDecorator resource admin options)
       propertyPath = Ok (Js.Own d))
  <-> In propertyPath (map BaseProperty_name (resource_properties resource))
      \/ (In propertyPath (Js.keys (or_empty (options_properties options)))
          /\ Js.has_dot propertyPath = false
          /\ Js.inherited propertyPath = false).
Proof.
  rewrite <- (In_keys_new resource admin options). split.
  - intros [d Hget]. apply getPropertyByKey_Own in Hget.
    exact (JsFacts.own_In_keys _ _ _ Hget).
  - intros Hin. apply JsFacts.In_keys_own in Hin as [d Hown].
    exists d. now apply getPropertyByKey_own.
Qed.

(** X6: a list of names for a place that names only descriptors of the
    resource never makes [getProperties] throw: the result holds, name
    by name, a decorator of a descriptor of the resource with that name,
    however many names there are and whatever [max] is. *)
Theorem getProperties_descriptor_names `{Collaborators} `{Js.ArraySort}
    (resource : BaseResource) (admin : AdminBro) (options : ResourceOptions)
    (where_ : PropertyPlace.t) (max : option Z) (names : list string) :
  whereProperties options where_ = Some names ->
  names <> [] ->
  (forall k, In k names ->
     In k (map BaseProperty_name (resource_properties resource))) ->
  exists ds,
    getProperties (new_ResourceDecorator resource admin options) where_ max
    = Ok (map Js.Own ds)
    /\ map (fun d => BaseProperty_name (property d)) ds = names
    /\ Forall (fun d => In (property d) (resource_properties resource)) ds.
Proof.
  intros Hopt Hne Hreal.
  set (this := new_ResourceDecorator resource admin options).
  assert (Hds : exists ds,
    Forall2 (fun k d => Js.own k (properties this) = Some d) names ds
    /\ map (fun d => BaseProperty_name (property d)) ds = names
    /\ Forall (fun d => In (property d) (resource_properties resource)) ds).
  { clear Hopt Hne. induction names as [|k names IH].
    - exists []. repeat split; constructor.
    - destruct IH as (ds & Hall & Hnames & Hdesc);
        [intros k' Hin; apply Hreal; now right|].
      assert (Hk : In k (Js.keys (properties this)))
        by (apply In_keys_new; left; apply Hreal; now left).
      apply JsFacts.In_keys_own in Hk as [d Hown].
      destruct (properties_new_entries resource admin options k d Hown)
        as (Hname & _ & [[_ Hin]|[Hno _]]).
      + exists (d :: ds). repeat split.
        * now constructor.
        * cbn [map]. now rewrite Hname, Hnames.
        * now constructor.
      + exfalso. apply Hno, Hreal. now left. }
  destruct Hds as (ds & Hall & Hnames & Hdesc).
  exists ds. split; [|now split].
  subst this. unfold getProperties. rewrite whereProperties_new, Hopt.
  destruct names as [|k names]; [contradiction|].
  cbn [length Nat.eqb]. now apply mapM_getPropertyByKey.
Qed.

Lemma getProperties_descriptor_names_witness :
  exists ds,
    getProperties
      (new_ResourceDecorator (Demo.table ["id"; "email"; "toString"]) tt
         (Demo.configure
            (Some [("email", {| Demo.position := None; Demo.isTitle := false;
                                Demo.hidden := true |})])
            (Some ["toString"; "email"; "toString"]) None))
      PropertyPlace.list (Some 1%Z)
    = Ok (map Js.Own ds)
    /\ map (fun d => BaseProperty_name (property d)) ds
       = ["toString"; "email"; "toString"]
    /\ Forall
         (fun d =>
            In (property d)
              (resource_properties (Demo.table ["id"; "email"; "toString"])))
         ds.
Proof.
  apply getProperties_descriptor_names.
  - reflexivity.
  - discriminate.
  - intros k [<-|[<-|[<-|[]]]]; simpl; auto.
Defined.

(** X7: a key of [options.properties] without a dot can always be
    looked up: [getPropertyByKey] does not throw for it.  When the key
    is no name of [Object.prototype], what is returned is a decorator of
    that name carrying the options given under the key, and when no
    descriptor has the name, the decorated property is the made-up one,
    which is not sortable. *)
Theorem getPropertyByKey_option_key `{Collaborators}
    (resource : BaseResource) (admin : AdminBro) (options : ResourceOptions)
    (key : string) :
  In key (Js.keys (or_empty (options_properties options))) ->
  Js.has_dot key = false ->
  (exists r,
     getPropertyByKey (new_ResourceDecorator resource admin options) key
     = Ok r)
  /\ (Js.inherited key = false ->
      exists d,
        getPropertyByKey (new_ResourceDecorator resource admin options) key
        = Ok (Js.Own d)
        /\ BaseProperty_name (property d) = key
        /\ property_options d
           = Js.get (or_empty (options_properties options)) key
        /\ (~ In key (map BaseProperty_name (resource_properties resource)) ->
            property d = {| path := key; isSortable := false |})).
Proof.
  intros Hkey Hdot.
  set (this := new_ResourceDecorator resource admin options).
  assert (Hown : Js.inherited key = false ->
    exists d, Js.own key (properties this) = Some d).
  { intros Hproto. apply JsFacts.In_keys_own, In_keys_new. right.
    now repeat split. }
  split.
  - destruct (Js.inherited key) eqn:Hproto.
    + exists (Js.get (properties this) key).
      apply getPropertyByKey_truthy. unfold Js.get. rewrite Hproto.
      now destruct (Js.own key (properties this)).
    + destruct (Hown eq_refl) as [d Hd]. exists (Js.Own d).
      now apply getPropertyByKey_own.
  - intros Hproto. destruct (Hown Hproto) as [d Hd]. exists d.
    destruct (properties_new_entries resource admin options key d Hd)
      as (Hname & Hopt & Hkind).
    split; [now apply getPropertyByKey_own|]. repeat split; try assumption.
    intros Hno. destruct Hkind as [[Hin _]|[_ Hsyn]];
      [contradiction | exact Hsyn].
Qed.

Lemma getPropertyByKey_option_key_witness :
  exists d,
    getPropertyByKey
      (new_ResourceDecorator (Demo.table ["id"; "email"]) tt
         (Demo.configure (Some [("fullName", Demo.plain)]) None None))
      "fullName"
    = Ok (Js.Own d)
    /\ BaseProperty_name (property d) = "fullName"
    /\ property_options d
       = Js.get
           (or_empty
              (options_properties
                 (Demo.configure (Some [("fullName", Demo.plain)]) None None)))
           "fullName"
    /\ (~ In "fullName"
          (map BaseProperty_name
             (resource_properties (Demo.table ["id"; "email"]))) ->
        property d = {| path := "fullName"; isSortable := false |}).
Proof.
  apply (proj2 (@getPropertyByKey_option_key Demo.host Demo.collaborators
                  (Demo.table ["id"; "email"]) tt
                  (Demo.configure (Some [("fullName", Demo.plain)]) None None)
                  "fullName" (or_introl eq_refl) eq_refl)).
  reflexivity.
Defined.

(** X8: a path with a dot that names no descriptor of the resource is
    never made up, whether the options mention it or not: looking it up
    throws the [ConfigurationError], with the path in its message. *)
Theorem getPropertyByKey_dotted_unknown `{Collaborators}
    (resource : BaseResource) (admin : AdminBro) (options : ResourceOptions)
    (propertyPath : string) :
  Js.has_dot propertyPath = true ->
  ~ In propertyPath (map BaseProperty_name (resource_properties resource)) ->
  exists message,
    getPropertyByKey (new_ResourceDecorator resource admin options)
      propertyPath
    = Throw (ConfigurationError message
               "tutorial-04-customizing-resources.html")
    /\ Js.includes message propertyPath.
Proof.
  intros Hdot Hno.
  assert (Hproto : Js.inherited propertyPath = false).
  { destruct (Js.inherited propertyPath) eqn:E; [|reflexivity].
    apply inherited_no_dot in E. congruence. }
  assert (Hown :
    Js.own propertyPath
      (properties (new_ResourceDecorator resource admin options)) = None).
  { apply JsFacts.own_None_iff. rewrite In_keys_new.
    intros [Hin|(_ & Hd & _)]; [contradiction | congruence]. }
  destruct (getPropertyByKey_missing _ propertyPath Hown Hproto)
    as (message & Hthrow & Hpath & _).
  now exists message.
Qed.

Lemma getPropertyByKey_dotted_unknown_witness :
  exists message,
    getPropertyByKey
      (new_ResourceDecorator (Demo.table ["id"; "email"]) tt
         (Demo.configure (Some [("address.city", Demo.plain)]) None None))
      "address.city"
    = Throw (ConfigurationError message
               "tutorial-04-customizing-resources.html")
    /\ Js.includes message "address.city".
Proof.
  apply getPropertyByKey_dotted_unknown.
  - reflexivity.
  - simpl. intuition discriminate.
Defined.

(** ** The decorated action map *)

Lemma NoDup_In_own {V : Type} (k : string) (v : V) (o : Js.Obj V) :
  NoDup (Js.keys o) -> In (k, v) o -> Js.own k o = Some v.
Proof.
  induction o as [|[k0 v0] o IH]; simpl; intros Hnd Hin; [contradiction|].
  inversion Hnd as [|? ? Hnotin Hnd']; subst.
  destruct Hin as [[= -> ->]|Hin].
  - now rewrite String.eqb_refl.
  - destruct (String.eqb_spec k k0) as [->|Hne].
    + exfalso. apply Hnotin. change k0 with (fst (k0, v)). now apply in_map.
    + now apply IH.
Qed.

Lemma keys_set_new_plain {V : Type} (k : string) (v : V) (o : Js.Obj V) :
  ~ In k (Js.keys o) -> Js.array_index k = None ->
  Js.keys (Js.set k v o) = Js.keys o ++ [k].
Proof.
  intros Hnew Hidx. apply JsFacts.own_None_iff in Hnew.
  rewrite JsFacts.set_new_plain by assumption.
  unfold Js.keys. now rewrite map_app.
Qed.

Lemma absent_true (ks : list string) (k : string) :
  absent ks k = true <-> ~ In k ks.
Proof.
  unfold absent. rewrite negb_true_iff, <- not_true_iff_false.
  now rewrite existsb_eqb_In.
Qed.

Section ActionOrder.
Context `{Collaborators}.

(** The keys [_.merge] leaves: those of the destination, then the new
    ones of the source in its order. *)
Lemma keys_merge (src : Js.Obj Action) : forall dst,
  NoDup (Js.keys src) ->
  (forall k, In k (Js.keys src) -> Js.array_index k = None) ->
  Js.keys (merge dst src)
  = Js.keys dst ++ filter (absent (Js.keys dst)) (Js.keys src).
Proof.
  induction src as [|[k u] src IH]; intros dst Hnd Hidx.
  - simpl. now rewrite app_nil_r.
  - inversion Hnd as [|? ? Hnotin Hnd']; subst.
    change (merge dst ((k, u) :: src))
      with (merge (Js.set k (merge_action (or_no_action (Js.own k dst)) u) dst)
              src).
    rewrite IH; [| exact Hnd' | intros k' Hin; apply Hidx; now right].
    cbn [Js.keys map fst filter]. fold (Js.keys src).
    destruct (absent (Js.keys dst) k) eqn:Hk.
    + apply absent_true in Hk.
      rewrite keys_set_new_plain;
        [| exact Hk | apply Hidx; now left].
      rewrite <- app_assoc. cbn [app]. do 2 f_equal.
      apply filter_ext_in. intros k' Hin. unfold absent.
      rewrite existsb_app. cbn [existsb].
      destruct (String.eqb_spec k' k) as [->|_]; [contradiction|].
      now rewrite !orb_false_r.
    + assert (Hin : In k (Js.keys dst)).
      { destruct (in_dec string_dec k (Js.keys dst)) as [Hin|Hno];
          [exact Hin|].
        apply absent_true in Hno. congruence. }
      apply JsFacts.In_keys_own in Hin as [d Hd].
      now rewrite (JsFacts.keys_set_old _ _ _ _ Hd).
Qed.

Lemma keys_fold_store {V W : Type} (f : string -> V -> W) (l : Js.Obj V) :
  forall acc : Js.Obj W,
  NoDup (Js.keys l) ->
  (forall k, In k (Js.keys l) -> ~ In k (Js.keys acc)) ->
  (forall k, In k (Js.keys l) -> Js.array_index k = None) ->
  Js.keys
    (fold_left (fun ret kv => Js.set (fst kv) (f (fst kv) (snd kv)) ret) l acc)
  = Js.keys acc ++ Js.keys l.
Proof.
  induction l as [|[k v] l IH]; intros acc Hnd Hnew Hidx.
  - simpl. now rewrite app_nil_r.
  - inversion Hnd as [|? ? Hnotin Hnd']; subst.
    cbn [fold_left fst snd]. rewrite IH; [| exact Hnd' | |].
    + rewrite keys_set_new_plain by (try apply Hnew; try apply Hidx; now left).
      now rewrite <- app_assoc.
    + intros k' Hin. rewrite JsFacts.In_keys_set.
      intros [->|Hacc]; [contradiction|].
      apply (Hnew k'); [now right | exact Hacc].
    + intros k' Hin. apply Hidx. now right.
Qed.

End ActionOrder.

(** X9: the decorated actions stand in the order of the default actions,
    followed by the actions only the user defines, in the order the
    user gave them (for keys that are not array indices); an override of
    a default action does not move it. *)
Theorem decorateActions_order `{Collaborators} (resource : BaseResource)
    (admin : AdminBro) (options : ResourceOptions) :
  let user := or_empty (options_actions options) in
  Js.wf ACTIONS ->
  Js.wf user ->
  (forall k, In k (Js.keys ACTIONS) \/ In k (Js.keys user) ->
     Js.array_index k = None) ->
  Js.keys (decorateActions resource admin options)
  = Js.keys ACTIONS ++ filter (absent (Js.keys ACTIONS)) (Js.keys user).
Proof.
  intros user HA Hu Hidx.
  apply JsFacts.wf_NoDup in HA. apply JsFacts.wf_NoDup in Hu.
  assert (Hdefaults : Js.keys (merge Js.empty ACTIONS) = Js.keys ACTIONS).
  { rewrite keys_merge; [| exact HA | intros k Hin; apply Hidx; now left].
    cbn [Js.keys Js.empty map app].
    apply forallb_filter_id, forallb_forall. reflexivity. }
  assert (Hmerged :
    Js.keys (merge (merge Js.empty ACTIONS) user)
    = Js.keys ACTIONS ++ filter (absent (Js.keys ACTIONS)) (Js.keys user)).
  { rewrite keys_merge; [| exact Hu | intros k Hin; apply Hidx; now right].
    now rewrite Hdefaults. }
  unfold decorateActions. fold user.
  rewrite (keys_fold_store
             (fun key a => {| action := with_defaults key a;
                              action_admin := admin;
                              action_resource := resource |})).
  - exact Hmerged.
  - apply NoDup_keys_merged.
  - intros k _ [].
  - intros k Hin. rewrite Hmerged, in_app_iff in Hin. apply Hidx.
    destruct Hin as [Hin|Hin]; [now left|].
    apply filter_In in Hin. now right.
Qed.

Lemma decorateActions_order_witness :
  Js.keys
    (decorateActions (Demo.table ["id"]) tt
       (Demo.configure None None
          (Some [("publish", Demo.builtin record);
                 ("show", Demo.builtin resource);
                 ("archive", Demo.builtin record)])))
  = Js.keys ACTIONS
    ++ filter (absent (Js.keys ACTIONS)) ["publish"; "show"; "archive"].
Proof.
  apply (@decorateActions_order Demo.host Demo.collaborators
           (Demo.table ["id"]) tt
           (Demo.configure None None
              (Some [("publish", Demo.builtin record);
                     ("show", Demo.builtin resource);
                     ("archive", Demo.builtin record)]))).
  - split; [reflexivity | simpl; intuition discriminate].
  - split; [reflexivity | simpl; intuition discriminate].
  - intros k [Hin|Hin]; simpl in Hin;
      repeat (destruct Hin as [<-|Hin]; [reflexivity|]); contradiction.
Defined.

(** X10: every decorated action is bound to the resource and the admin
    of the decorator, and it is the action the merge gives under its
    key with a name and a label set: the name is the one of the merged
    action when that is a string that is not empty, and the key when
    the merged action has no name or an empty one; the same holds for
    the label; the other fields are those of the merged action.  Under
    a key that is not empty the name and the label are not empty. *)
Theorem decorateActions_named `{Collaborators} (resource : BaseResource)
    (admin : AdminBro) (options : ResourceOptions) (key : string)
    (decorator : ActionDecorator) :
  In (key, decorator) (decorateActions resource admin options) ->
  action_admin decorator = admin
  /\ action_resource decorator = resource
  /\ (exists name label,
        action_name (action decorator) = Some name
        /\ action_label (action decorator) = Some label
        /\ (key <> "" -> name <> "" /\ label <> ""))
  /\ exists merged : Action,
       Js.own key
         (merge (merge Js.empty ACTIONS) (or_empty (options_actions options)))
       = Some merged
       /\ (forall name, action_name merged = Some name -> name <> "" ->
           action_name (action decorator) = Some name)
       /\ (action_name merged = None \/ action_name merged = Some "" ->
           action_name (action decorator) = Some key)
       /\ (forall label, action_label merged = Some label -> label <> "" ->
           action_label (action decorator) = Some label)
       /\ (action_label merged = None \/ action_label merged = Some "" ->
           action_label (action decorator) = Some key)
       /\ actionType (action decorator) = actionType merged
       /\ component (action decorator) = component merged
       /\ isVisible (action decorator) = isVisible merged
       /\ isAccessible (action decorator) = isAccessible merged
       /\ handler (action decorator) = handler merged.
Proof.
  intros Hin.
  assert (Hnd : NoDup (Js.keys (decorateActions resource admin options))).
  { unfold decorateActions.
    apply (fold_left_invariant (fun o => NoDup (Js.keys o))).
    - constructor.
    - intros acc kv _ Hacc. now apply JsFacts.NoDup_keys_set. }
  apply (NoDup_In_own _ _ _ Hnd) in Hin.
  rewrite own_decorateActions in Hin.
  destruct (Js.own key _) as [a|]; [|discriminate].
  injection Hin as <-. cbn [action action_admin action_resource].
  split; [reflexivity|]. split; [reflexivity|]. split.
  - do 2 eexists. repeat split.
    + intros Hempty. unfold or_key, Js.truthy_string in Hempty.
      destruct (action_name a) as [s|]; [|contradiction].
      destruct (String.eqb_spec s ""); simpl in Hempty; contradiction.
    + intros Hempty. unfold or_key, Js.truthy_string in Hempty.
      destruct (action_label a) as [s|]; [|contradiction].
      destruct (String.eqb_spec s ""); simpl in Hempty; contradiction.
  - exists a. split; [reflexivity|].
    cbn [with_defaults action_name action_label actionType component
         isVisible isAccessible handler].
    unfold or_key, Js.truthy_string.
    repeat split.
    + intros name -> Hname.
      destruct (String.eqb_spec name ""); [contradiction | reflexivity].
    + intros [->| ->]; reflexivity.
    + intros label -> Hlabel.
      destruct (String.eqb_spec label ""); [contradiction | reflexivity].
    + intros [->| ->]; reflexivity.
Qed.

Lemma decorateActions_named_witness :
  In ("delete", Demo.decorated_delete)
    (decorateActions (Demo.table ["id"]) tt Demo.renamed_delete)
  /\ action_admin Demo.decorated_delete = tt
  /\ action_resource Demo.decorated_delete = Demo.table ["id"]
  /\ (exists name label,
        action_name (action Demo.decorated_delete) = Some name
        /\ action_label (action Demo.decorated_delete) = Some label
        /\ ("delete" <> "" -> name <> "" /\ label <> ""))
  /\ exists merged : Action,
       Js.own "delete"
         (merge (merge Js.empty ACTIONS)
            (or_empty (options_actions Demo.renamed_delete)))
       = Some merged
       /\ (forall name, action_name merged = Some name -> name <> "" ->
           action_name (action Demo.decorated_delete) = Some name)
       /\ (action_name merged = None \/ action_name merged = Some "" ->
           action_name (action Demo.decorated_delete) = Some "delete")
       /\ (forall label, action_label merged = Some label -> label <> "" ->
           action_label (action Demo.decorated_delete) = Some label)
       /\ (action_label merged = None \/ action_label merged = Some "" ->
           action_label (action Demo.decorated_delete) = Some "delete")
       /\ actionType (action Demo.decorated_delete) = actionType merged
       /\ component (action Demo.decorated_delete) = component merged
       /\ isVisible (action Demo.decorated_delete) = isVisible merged
       /\ isAccessible (action Demo.decorated_delete) = isAccessible merged
       /\ handler (action Demo.decorated_delete) = handler merged.
Proof.
  assert (Hin : In ("delete", Demo.decorated_delete)
                  (decorateActions (Demo.table ["id"]) tt
                     Demo.renamed_delete)).
  { simpl. tauto. }
  split; [exact Hin|].
  exact (@decorateActions_named Demo.host Demo.collaborators
           (Demo.table ["id"]) tt Demo.renamed_delete "delete"
           Demo.decorated_delete Hin).
Defined.

(** X11: an action is among [recordActions] for a record and a user
    exactly when it is an action of the resource, is of the record
    type, and is visible and accessible to the user for that record;
    the actions returned stand in the order of the action map. *)
Theorem recordActions_policy `{Collaborators} (this : ResourceDecorator)
    (record : BaseRecord) (currentAdmin : option CurrentAdmin) :
  (forall a,
     In a (recordActions this record currentAdmin) <->
     In a (Js.values (actions this))
     /\ ActionDecorator_isRecordType a = true
     /\ ActionDecorator_isVisible a currentAdmin (Some record) = true
     /\ ActionDecorator_isAccessible a currentAdmin (Some record) = true)
  /\ (forall pre a b post,
        recordActions this record currentAdmin = pre ++ a :: b :: post ->
        exists l1 l2 l3,
          Js.values (actions this) = l1 ++ a :: l2 ++ b :: l3).
Proof.
  split.
  - intros a. unfold recordActions.
    rewrite filter_In, !andb_true_iff. tauto.
  - unfold recordActions.
    generalize (Js.values (actions this)) as l.
    generalize (fun action =>
                  ActionDecorator_isRecordType action
                  && ActionDecorator_isVisible action currentAdmin (Some record)
                  && ActionDecorator_isAccessible action currentAdmin
                       (Some record)) as f.
    intros f l. revert l.
    assert (Hhead : forall l a rest,
      filter f l = a :: rest ->
      exists l1 l2, l = l1 ++ a :: l2 /\ filter f l2 = rest).
    { induction l as [|x l IH]; simpl; intros a rest Hf; [discriminate|].
      destruct (f x).
      - injection Hf as -> <-. now exists [], l.
      - destruct (IH a rest Hf) as (l1 & l2 & -> & Hrest).
        now exists (x :: l1), l2. }
    intros l pre. revert l.
    induction pre as [|p pre IH]; intros l a b post Hf.
    + destruct (Hhead l a (b :: post) Hf) as (l1 & l2 & -> & Hrest).
      destruct (Hhead l2 b post Hrest) as (l3 & l4 & -> & _).
      now exists l1, l3, l4.
    + cbn [app] in Hf.
      destruct (Hhead l p _ Hf) as (l1 & l2 & -> & Hrest).
      destruct (IH l2 a b post Hrest) as (m1 & m2 & m3 & ->).
      exists (l1 ++ p :: m1), m2, m3. now rewrite <- app_assoc.
Qed.

(** ** When [toJSON] returns *)

Lemma mapM_Ok_Forall2 {A B : Type} (f : A -> Result B) (l : list A) :
  forall l', mapM f l = Ok l' -> Forall2 (fun a b => f a = Ok b) l l'.
Proof.
  induction l as [|a l IH]; simpl; intros l' Hl.
  - injection Hl as <-. constructor.
  - destruct (f a) as [b|e] eqn:Ha; simpl in Hl; [|discriminate].
    destruct (mapM f l) as [bs|e]; simpl in Hl; [|discriminate].
    injection Hl as <-. constructor; [exact Ha | now apply IH].
Qed.

Lemma mapM_length {A B : Type} (f : A -> Result B) (l : list A) (l' : list B) :
  mapM f l = Ok l' -> length l' = length l.
Proof.
  intros Hl. apply mapM_Ok_Forall2 in Hl.
  symmetry. exact (Forall2_length Hl).
Qed.

Section Snapshot.
Context `{Collaborators} `{Js.ArraySort}.
Variable this : ResourceDecorator.

Lemma titleProperty_None :
  titleProperty this = None <-> Js.values (properties this) = [].
Proof.
  unfold titleProperty.
  destruct (Js.values (properties this)) as [|p rest]; simpl.
  - tauto.
  - destruct (PropertyDecorator_isTitle p); [split; discriminate|].
    destruct (find PropertyDecorator_isTitle rest); split; discriminate.
Qed.

Lemma own_all_Forall2 (names : list string) :
  (forall k, In k names -> Js.own k (properties this) <> None) ->
  exists ds,
    Forall2 (fun k d => Js.own k (properties this) = Some d) names ds.
Proof.
  induction names as [|k names IH]; intros Hall.
  - exists []. constructor.
  - destruct IH as [ds Hds]; [intros k' Hin; apply Hall; now right|].
    destruct (Js.own k (properties this)) as [d|] eqn:E.
    + exists (d :: ds). now constructor.
    + exfalso. apply (Hall k); [now left | exact E].
Qed.

(** Names that are all keys of the map are answered with decorators. *)
Lemma getProperties_Own (where_ : PropertyPlace.t) (max : option Z) :
  (forall names k,
     whereProperties (options this) where_ = Some names ->
     In k names -> Js.own k (properties this) <> None) ->
  exists ds, getProperties this where_ max = Ok (map Js.Own ds).
Proof.
  intros Hres.
  destruct (whereProperties (options this) where_) as [[|k names]|] eqn:Hw.
  - apply getProperties_default_own. now right.
  - destruct (own_all_Forall2 (k :: names)
                (fun k' Hin => Hres (k :: names) k' eq_refl Hin))
      as [ds Hds].
    exists ds. unfold getProperties. rewrite Hw. cbn [length Nat.eqb].
    now apply mapM_getPropertyByKey.
  - apply getProperties_default_own. now left.
Qed.

(** What was returned and could be turned into JSON came from keys of
    the map. *)
Lemma getProperties_toJSON_keys (where_ : PropertyPlace.t) (max : option Z)
    (rs : list (Js.Read PropertyDecorator)) (js : list PropertyJSON) :
  getProperties this where_ max = Ok rs ->
  mapM read_toJSON rs = Ok js ->
  forall names k,
    whereProperties (options this) where_ = Some names ->
    In k names -> Js.own k (properties this) <> None.
Proof.
  intros Hget Hjson names k Hw Hin.
  unfold getProperties in Hget. rewrite Hw in Hget.
  destruct names as [|k0 names]; [contradiction|].
  cbn [length Nat.eqb] in Hget.
  apply mapM_Ok_Forall2 in Hget. apply mapM_Ok_Forall2 in Hjson.
  clear Hw. revert js Hjson Hin.
  induction Hget as [|k' r l rs Hk' _ IH]; intros js Hjson Hin;
    [contradiction|].
  inversion Hjson as [|? j ? js' Hr Hrest]; subst.
  destruct Hin as [<-|Hin]; [|now apply (IH js')].
  destruct r as [|d|n]; simpl in Hr; try discriminate.
  apply getPropertyByKey_Own in Hk'. congruence.
Qed.

End Snapshot.

(** X12: [toJSON] returns exactly when the resource has a property and
    every name the options list for a place is a key of the property
    map; in every other case it throws. *)
Theorem toJSON_returns_iff `{Collaborators} `{Js.ArraySort}
    (this : ResourceDecorator) (currentAdmin : option CurrentAdmin) :
  (exists json, toJSON this currentAdmin = Ok json)
  <-> Js.values (properties this) <> []
      /\ (forall where_ names k,
            whereProperties (options this) where_ = Some names ->
            In k names -> Js.own k (properties this) <> None).
Proof.
  split.
  - intros [json Hjson]. unfold toJSON in Hjson.
    destruct (titleProperty this) as [t|] eqn:Ht; [|discriminate].
    cbn [bind] in Hjson.
    destruct (getProperties this PropertyPlace.list _) as [lps|] eqn:Hl;
      [|discriminate]. cbn [bind] in Hjson.
    destruct (mapM read_toJSON lps) as [lj|] eqn:Hlj; [|discriminate].
    cbn [bind] in Hjson.
    destruct (getProperties this PropertyPlace.edit _) as [eps|] eqn:He;
      [|discriminate]. cbn [bind] in Hjson.
    destruct (mapM read_toJSON eps) as [ej|] eqn:Hej; [|discriminate].
    cbn [bind] in Hjson.
    destruct (getProperties this PropertyPlace.show _) as [sps|] eqn:Hs;
      [|discriminate]. cbn [bind] in Hjson.
    destruct (mapM read_toJSON sps) as [sj|] eqn:Hsj; [|discriminate].
    cbn [bind] in Hjson.
    destruct (getProperties this PropertyPlace.filter _) as [fps|] eqn:Hf;
      [|discriminate]. cbn [bind] in Hjson.
    destruct (mapM read_toJSON fps) as [fj|] eqn:Hfj; [|discriminate].
    split.
    + intros Hnone. apply titleProperty_None in Hnone. congruence.
    + intros where_. destruct where_.
      * exact (getProperties_toJSON_keys this _ _ _ _ Hl Hlj).
      * exact (getProperties_toJSON_keys this _ _ _ _ He Hej).
      * exact (getProperties_toJSON_keys this _ _ _ _ Hs Hsj).
      * exact (getProperties_toJSON_keys this _ _ _ _ Hf Hfj).
  - intros [Hsome Hres]. unfold toJSON.
    destruct (titleProperty this) as [t|] eqn:Ht;
      [|apply titleProperty_None in Ht; contradiction].
    cbn [bind].
    destruct (getProperties_Own this PropertyPlace.list
                (Some DEFAULT_MAX_COLUMNS_IN_LIST) (Hres _)) as [l ->].
    destruct (getProperties_Own this PropertyPlace.edit None (Hres _))
      as [e ->].
    destruct (getProperties_Own this PropertyPlace.show None (Hres _))
      as [s ->].
    destruct (getProperties_Own this PropertyPlace.filter None (Hres _))
      as [f ->].
    cbn [bind]. rewrite !mapM_read_toJSON. cbn [bind].
    eexists. reflexivity.
Qed.

(** X13: on a decorator without properties [toJSON] throws the
    [TypeError] of reading the title, whatever the options list; on a
    decorator with properties, a name listed for the list view that
    finds nothing, after names that find something, makes [toJSON] throw
    the [ConfigurationError] naming it. *)
Theorem toJSON_throws `{Collaborators} `{Js.ArraySort}
    (this : ResourceDecorator) (currentAdmin : option CurrentAdmin) :
  (Js.values (properties this) = [] ->
   toJSON this currentAdmin
   = Throw (TypeError "Cannot read property 'toJSON' of undefined"))
  /\ (forall pre k post,
        Js.values (properties this) <> [] ->
        listProperties (options this) = Some (pre ++ k :: post) ->
        (forall k', In k' pre ->
           Js.truthy (Js.get (properties this) k') = true) ->
        Js.truthy (Js.get (properties this) k) = false ->
        exists message,
          toJSON this currentAdmin =
            Throw (ConfigurationError message
                     "tutorial-04-customizing-resources.html")
          /\ Js.includes message k).
Proof.
  split.
  - intros Hnone. apply titleProperty_None in Hnone.
    unfold toJSON. now rewrite Hnone.
  - intros pre k post Hsome Hlist Hpre Hk.
    apply truthy_get_false in Hk. destruct Hk as [Hown Hproto].
    destruct (getPropertyByKey_missing this k Hown Hproto)
      as (message & Hthrow & Hpath & _).
    exists message. split; [|exact Hpath].
    unfold toJSON.
    destruct (titleProperty this) as [t|] eqn:Ht;
      [|apply titleProperty_None in Ht; contradiction].
    cbn [bind].
    assert (Hget :
      getProperties this PropertyPlace.list (Some DEFAULT_MAX_COLUMNS_IN_LIST)
      = Throw (ConfigurationError message
                 "tutorial-04-customizing-resources.html")).
    { unfold getProperties. cbn [whereProperties]. rewrite Hlist.
      assert (Hlen : (length (pre ++ k :: post) =? 0)%nat = false)
        by (rewrite length_app; cbn [length]; apply Nat.eqb_neq; lia).
      rewrite Hlen.
      rewrite (mapM_getPropertyByKey_first this pre post k Hpre), Hthrow.
      reflexivity. }
    now rewrite Hget.
Qed.

Lemma toJSON_throws_witness :
  toJSON (Demo.decorate [] (Demo.configure None (Some ["nope"]) None)) None
  = Throw (TypeError "Cannot read property 'toJSON' of undefined").
Proof.
  apply (proj1 (toJSON_throws
                  (Demo.decorate [] (Demo.configure None (Some ["nope"]) None))
                  None)).
  reflexivity.
Defined.

(** X14: in the JSON [toJSON] returns, the properties of the list view
    are at most 8 when the options name none for the list, and as many
    as the names when the options name some; the actions are those
    [resourceActions] gives for the user, in its order. *)
Theorem toJSON_lists `{Collaborators} `{Js.ArraySort}
    (this : ResourceDecorator) (currentAdmin : option CurrentAdmin)
    (json : ResourceJSON) :
  toJSON this currentAdmin = Ok json ->
  (listProperties (options this) = None
   \/ listProperties (options this) = Some [] ->
   length (json_listProperties json) <= 8)
  /\ (forall names,
        listProperties (options this) = Some names -> names <> [] ->
        length (json_listProperties json) = length names)
  /\ json_resourceActions json
     = map ActionDecorator_toJSON (resourceActions this currentAdmin).
Proof.
  intros Hjson. unfold toJSON in Hjson.
  destruct (titleProperty this) as [t|]; [|discriminate].
  cbn [bind] in Hjson.
  destruct (getProperties this PropertyPlace.list _) as [lps|] eqn:Hl;
    [|discriminate]. cbn [bind] in Hjson.
  destruct (mapM read_toJSON lps) as [lj|] eqn:Hlj; [|discriminate].
  cbn [bind] in Hjson.
  repeat match type of Hjson with
         | bind ?r _ = Ok _ => destruct r; cbn [bind] in Hjson; [|discriminate]
         end.
  injection Hjson as <-. cbn [json_listProperties json_resourceActions].
  rewrite (mapM_length _ _ _ Hlj).
  split; [|split; [|reflexivity]].
  - intros Hnone.
    rewrite (getProperties_no_names this PropertyPlace.list _ Hnone) in Hl.
    injection Hl as <-. cbv zeta. cbn [or_default].
    change (DEFAULT_MAX_COLUMNS_IN_LIST =? 0)%Z with false. cbv iota.
    rewrite length_map. apply (JsFacts.slice0_length _ 8%Z). lia.
  - intros names Hnames Hne. unfold getProperties in Hl.
    cbn [whereProperties] in Hl. rewrite Hnames in Hl.
    destruct names as [|k names]; [contradiction|].
    cbn [length Nat.eqb] in Hl.
    exact (mapM_length _ _ _ Hl).
Qed.

Lemma toJSON_lists_witness :
  exists json,
    toJSON
      (Demo.decorate ["a"; "b"; "c"; "d"; "e"; "f"; "g"; "h"; "i"; "j"]
         Demo.no_options) None = Ok json
    /\ length (json_listProperties json) <= 8.
Proof.
  eexists. split; [reflexivity|].
  refine (proj1 (toJSON_lists
                   (Demo.decorate
                      ["a"; "b"; "c"; "d"; "e"; "f"; "g"; "h"; "i"; "j"]
                      Demo.no_options) None _ eq_refl) _).
  left. reflexivity.
Defined.

(** ** The parent of the resource *)

(** X15: the icon [getParent] returns is never empty; a parent given as
    a string that is not empty is the name, with the icon of the
    database; a parent given as an empty string counts as none; and a
    parent given as an object without a name is itself returned as the
    name, not the name of the database. *)
Theorem getParent_cases `{Collaborators} (this : ResourceDecorator) :
  parent_icon (getParent this) <> ""
  /\ (forall s,
        options_parent (options this) = Some (ParentString s) -> s <> "" ->
        parent_name (getParent this) = ParentString s)
  /\ (options_parent (options this) = Some (ParentString "") ->
      parent_name (getParent this)
      = ParentString (databaseName (_resource this)))
  /\ (forall n i,
        options_parent (options this) = Some (ParentObject (Some n) (Some i)) ->
        n <> "" -> i <> "" ->
        getParent this
        = {| parent_name := ParentString n; parent_icon := i |})
  /\ (forall i,
        options_parent (options this) = Some (ParentObject None i) ->
        parent_name (getParent this) = ParentObject None i).
Proof.
  assert (Htruthy : forall s, s <> "" -> Js.truthy_string s = true).
  { intros s Hs. unfold Js.truthy_string.
    now destruct (String.eqb_spec s ""). }
  assert (Hfalsy : forall s, Js.truthy_string s = true -> s <> "").
  { intros s Hs ->. discriminate. }
  unfold getParent. repeat split.
  - destruct (options_parent (options this)) as [[s|n [i|]]|];
      try (destruct (Js.truthy_string s)); cbn [parent_icon];
      try discriminate.
    destruct (Js.truthy_string i) eqn:Hi; [now apply Hfalsy | discriminate].
  - intros s -> Hs. now rewrite (Htruthy s Hs).
  - intros ->. reflexivity.
  - intros n i -> Hn Hi. now rewrite (Htruthy n Hn), (Htruthy i Hi).
  - intros i ->. reflexivity.
Qed.

(** ** The title of a record *)

Lemma find_Some_first {A : Type} (f : A -> bool) (l : list A) (t : A) :
  find f l = Some t ->
  exists pre post,
    l = pre ++ t :: post
    /\ (forall q, In q pre -> f q = false)
    /\ f t = true.
Proof.
  induction l as [|a l IH]; simpl; [discriminate|].
  destruct (f a) eqn:Ha.
  - intros [= <-]. exists [], l. repeat split; auto. intros q [].
  - intros Hfind. destruct (IH Hfind) as (pre & post & -> & Hpre & Ht).
    exists (a :: pre), post. repeat split; auto.
    intros q [<-|Hq]; auto.
Qed.

(** X16: [titleOf] throws a [TypeError] on a decorator without
    properties; otherwise it returns the field of the record named by
    the title property, which is a property of the map: the first one
    that says it is a title, or the first of the map when none does. *)
Theorem titleOf_field `{Collaborators} {R : Records}
    (this : ResourceDecorator) (record : BaseRecord) :
  (Js.values (properties this) = [] ->
   titleOf this record
   = Throw (TypeError "Cannot read property 'name' of undefined"))
  /\ (forall p rest,
        Js.values (properties this) = p :: rest ->
        exists pre t post,
          titleOf this record
          = Ok (BaseRecord_param record (PropertyDecorator_name t))
          /\ p :: rest = pre ++ t :: post
          /\ (forall q, In q pre -> PropertyDecorator_isTitle q = false)
          /\ (PropertyDecorator_isTitle t = true
              \/ pre = []
                 /\ forall q, In q post ->
                      PropertyDecorator_isTitle q = false)).
Proof.
  unfold titleOf, titleProperty. split.
  - intros ->. reflexivity.
  - intros p rest ->.
    destruct (find PropertyDecorator_isTitle (p :: rest)) as [t|] eqn:Hfind.
    + destruct (find_Some_first _ _ _ Hfind) as (pre & post & Heq & Hpre & Ht).
      exists pre, t, post. repeat split; auto.
    + exists [], p, rest. repeat split.
      * intros q [].
      * right. split; [reflexivity|].
        intros q Hq. apply (find_none _ _ Hfind q). now right.
Qed.

Lemma titleOf_field_witness :
  titleOf (Demo.decorate [] Demo.no_options) tt
  = Throw (TypeError "Cannot read property 'name' of undefined").
Proof.
  apply (proj1 (titleOf_field (Demo.decorate [] Demo.no_options) tt)).
  reflexivity.
Defined.

(** The title of a record is read under the name of the property marked
    as title. *)
Example titleOf_run :
  titleOf
    (Demo.decorate ["id"; "email"; "name"]
       (Demo.configure
          (Some [("name", {| Demo.position := None; Demo.isTitle := true;
                             Demo.hidden := false |})])
          None None))
    tt
  = Ok "value of name".
Proof. reflexivity. Qed.
